(** * Verification of the QR attendance system (icecream-qr)

    A shallow embedding of the credential codec ([make_token],
    [generate_qr_image_from_token], the decode block of
    [QRTransformer.recv]), of the SQLite store helpers and of the
    per-symbol body of [QRTransformer.recv], with the properties of the
    specification stated and settled over it.

    Text model.  A Python [str] is represented by the byte sequence of its
    UTF-8 encoding, held in a Rocq [string]; [bytes] values are
    [list byte].  Under this view [s.encode("utf-8")] is the identity on
    the underlying bytes and [b.decode("utf-8")] is a validity check.

    Outside world.  The Fernet object is a parameter with the contract of
    the library.  Clock readings and the state of the SQLite lock are
    inputs of each call; a reading of [time.time()] is a rational number,
    on which the subtraction and the comparison with the window are
    exact.  The [SELECT] statements are taken to succeed. *)

From Stdlib Require Import NArith ZArith QArith Lia Lqa.
From Stdlib Require Import Strings.Ascii Strings.String Strings.Byte Lists.List.
From stdpp Require Import gmap strings list.

Set Warnings "-clear-no-such-hyp".

Local Open Scope N_scope.

(* ===================================================================== *)
(** ** Bytes                                                              *)
(* ===================================================================== *)

Module Bytes.

(** Storing a C [unsigned char]: the value is reduced modulo 256. *)
Definition of_N (n : N) : byte :=
  match Byte.of_N (n mod 256) with
  | Some b => b
  | None => "000"%byte
  end.

Definition is_ascii (b : byte) : bool := Byte.to_N b <? 128.

End Bytes.

(* ===================================================================== *)
(** ** base64 ([base64.urlsafe_b64encode], [base64.urlsafe_b64decode])    *)
(* ===================================================================== *)

Module Base64.

Definition alphabet : list byte :=
  list_byte_of_string
    "ABCDEFGHIJKLMNOPQRSTUVWXYZabcdefghijklmnopqrstuvwxyz0123456789-_".

Definition pad : byte := "="%byte.

(** The character of a 6-bit group in the URL-safe alphabet. *)
Definition char_of (n : N) : byte := nth (N.to_nat n) alphabet pad.

(** [base64.urlsafe_b64encode]: three input bytes give four characters;
    a final group of one or two bytes is padded with [=]. *)
Fixpoint urlsafe_b64encode (bs : list byte) : list byte :=
  match bs with
  | [] => []
  | [a] =>
      let x := Byte.to_N a in
      [char_of (x / 4); char_of ((x mod 4) * 16); pad; pad]
  | [a; b] =>
      let x := Byte.to_N a in
      let y := Byte.to_N b in
      [char_of (x / 4); char_of ((x mod 4) * 16 + y / 16);
       char_of ((y mod 16) * 4); pad]
  | a :: b :: c :: rest =>
      let x := Byte.to_N a in
      let y := Byte.to_N b in
      let z := Byte.to_N c in
      char_of (x / 4) :: char_of ((x mod 4) * 16 + y / 16)
        :: char_of ((y mod 16) * 4 + z / 64) :: char_of (z mod 64)
        :: urlsafe_b64encode rest
  end.

(** The decoding table, after the URL-safe translation of [-] to [+] and
    of [_] to [/]: both spellings of the values 62 and 63 are accepted. *)
Definition value_of (c : byte) : option N :=
  let n := Byte.to_N c in
  if (65 <=? n) && (n <=? 90) then Some (n - 65)
  else if (97 <=? n) && (n <=? 122) then Some (n - 71)
  else if (48 <=? n) && (n <=? 57) then Some (n + 4)
  else if (n =? 43) || (n =? 45) then Some 62
  else if (n =? 47) || (n =? 95) then Some 63
  else None.

(** [binascii.a2b_base64] in its default, non-strict mode.  Characters
    outside the alphabet are skipped; a complete run of padding ends the
    decoding; an input that stops inside a group of four is an error
    ([None] stands for [binascii.Error]). *)
Fixpoint a2b_base64 (s : list byte) (quad_pos : nat) (leftchar : N)
    (pads : nat) : option (list byte) :=
  match s with
  | [] => match quad_pos with O => Some [] | _ => None end
  | c :: s' =>
      if Byte.eqb c pad then
        if (2 <=? quad_pos)%nat then
          if (4 <=? quad_pos + S pads)%nat then Some []
          else a2b_base64 s' quad_pos leftchar (S pads)
        else a2b_base64 s' quad_pos leftchar pads
      else
        match value_of c with
        | None => a2b_base64 s' quad_pos leftchar pads
        | Some v =>
            match quad_pos with
            | 0%nat => a2b_base64 s' 1 v 0
            | 1%nat =>
                cons (Bytes.of_N (leftchar * 4 + v / 16))
                  <$> a2b_base64 s' 2 (v mod 16) 0
            | 2%nat =>
                cons (Bytes.of_N (leftchar * 16 + v / 4))
                  <$> a2b_base64 s' 3 (v mod 4) 0
            | _ =>
                cons (Bytes.of_N (leftchar * 64 + v))
                  <$> a2b_base64 s' 0 0 0
            end
        end
  end.

(** [base64.urlsafe_b64decode] applied to a [str]: the text is first
    encoded as ASCII (a non-ASCII character raises [ValueError]). *)
Definition urlsafe_b64decode (s : string) : option (list byte) :=
  let bs := list_byte_of_string s in
  if forallb Bytes.is_ascii bs then a2b_base64 bs 0 0 0 else None.

(** What is checked of the character of each 6-bit group: it decodes to
    the group, and is an ASCII character other than [=] and [|]. *)
Definition char_ok (n : N) : bool :=
  let c := char_of n in
  match value_of c with Some v => v =? n | None => false end
  && negb (Byte.eqb c pad)
  && Bytes.is_ascii c
  && negb (Byte.to_N c =? 124).

(** A character of URL-safe base64 text: one of the alphabet, or the
    padding character. *)
Definition url_safe (c : byte) : Prop := In c (pad :: alphabet).

(** An ASCII character other than the separator [|]. *)
Definition plain_char (c : byte) : Prop :=
  Bytes.is_ascii c = true /\ Byte.to_N c <> 124.

End Base64.

(* ===================================================================== *)
(** ** Text: UTF-8 validity, [str.split], [str.strip]                     *)
(* ===================================================================== *)

Module Text.

(** The states of the UTF-8 recogniser: [Start] is the state between two
    characters; the others record what the bytes read so far still
    require. *)
Inductive utf8_state :=
  | Start | Cont1 | Cont2 | Cont3 | AfterE0 | AfterED | AfterF0 | AfterF4
  | Reject.

Definition between (lo hi n : N) : bool := (lo <=? n) && (n <=? hi).

Definition utf8_step (st : utf8_state) (b : byte) : utf8_state :=
  let n := Byte.to_N b in
  match st with
  | Start =>
      if n <? 128 then Start
      else if between 194 223 n then Cont1
      else if n =? 224 then AfterE0
      else if n =? 237 then AfterED
      else if between 225 239 n then Cont2
      else if n =? 240 then AfterF0
      else if between 241 243 n then Cont3
      else if n =? 244 then AfterF4
      else Reject
  | Cont1 => if between 128 191 n then Start else Reject
  | Cont2 => if between 128 191 n then Cont1 else Reject
  | Cont3 => if between 128 191 n then Cont2 else Reject
  | AfterE0 => if between 160 191 n then Cont1 else Reject
  | AfterED => if between 128 159 n then Cont1 else Reject
  | AfterF0 => if between 144 191 n then Cont2 else Reject
  | AfterF4 => if between 128 143 n then Cont2 else Reject
  | Reject => Reject
  end.

Definition utf8_run (st : utf8_state) (bs : list byte) : utf8_state :=
  fold_left utf8_step bs st.

Definition utf8_valid (bs : list byte) : bool :=
  match utf8_run Start bs with Start => true | _ => false end.

(** [b.decode("utf-8")]; [None] stands for [UnicodeDecodeError]. *)
Definition decode_utf8 (bs : list byte) : option string :=
  if utf8_valid bs then Some (string_of_list_byte bs) else None.

(** [s.encode("utf-8")]. *)
Definition encode_utf8 (s : string) : list byte := list_byte_of_string s.

(** A [str] of the program is a well-formed UTF-8 sequence. *)
Definition is_str (s : string) : bool := utf8_valid (list_byte_of_string s).

(** [s.split(sep)] for a one-character ASCII separator: the list of the
    parts between the occurrences of [sep] (never empty). *)
Fixpoint split (sep : ascii) (s : string) : list string :=
  match s with
  | EmptyString => [EmptyString]
  | String c s' =>
      if Ascii.eqb c sep then EmptyString :: split sep s'
      else match split sep s' with
           | [] => [String c EmptyString]
           | p :: ps => String c p :: ps
           end
  end.

(** [c in s]. *)
Fixpoint contains (c : ascii) (s : string) : bool :=
  match s with
  | EmptyString => false
  | String d s' => Ascii.eqb d c || contains c s'
  end.

(** [s.count(c)]. *)
Fixpoint count (c : ascii) (s : string) : nat :=
  match s with
  | EmptyString => O
  | String d s' => ((if Ascii.eqb d c then 1 else 0) + count c s')%nat
  end.

(** The characters [str.strip()] removes (those for which [str.isspace]
    holds), each given by the bytes of its UTF-8 encoding: U+0009..U+000D,
    U+001C..U+0020, U+0085, U+00A0, U+1680, U+2000..U+200A, U+2028,
    U+2029, U+202F, U+205F and U+3000. *)
Definition whitespace : list (list N) :=
  [ [9]; [10]; [11]; [12]; [13]; [28]; [29]; [30]; [31]; [32];
    [194; 133]; [194; 160]; [225; 154; 128];
    [226; 128; 128]; [226; 128; 129]; [226; 128; 130]; [226; 128; 131];
    [226; 128; 132]; [226; 128; 133]; [226; 128; 134]; [226; 128; 135];
    [226; 128; 136]; [226; 128; 137]; [226; 128; 138];
    [226; 128; 168]; [226; 128; 169]; [226; 128; 175];
    [226; 129; 159]; [227; 128; 128] ].

(** [strip_prefix p s] is the rest of [s] after its prefix [p], if [p] is
    a prefix of [s]. *)
Fixpoint strip_prefix (p s : list N) : option (list N) :=
  match p, s with
  | [], _ => Some s
  | x :: p', y :: s' => if x =? y then strip_prefix p' s' else None
  | _ :: _, [] => None
  end.

Fixpoint first_some {A B} (f : A -> option B) (l : list A) : option B :=
  match l with
  | [] => None
  | x :: l' => match f x with Some y => Some y | None => first_some f l' end
  end.

(** Removes the whitespace characters at the front of [s], each one given
    in [ws]; [fuel] bounds the number of characters removed. *)
Fixpoint lstrip_with (ws : list (list N)) (fuel : nat) (s : list N)
    : list N :=
  match fuel with
  | O => s
  | S fuel' =>
      match first_some (fun w => strip_prefix w s) ws with
      | Some s' => lstrip_with ws fuel' s'
      | None => s
      end
  end.

Definition codes (s : string) : list N :=
  map N_of_ascii (list_ascii_of_string s).

Definition of_codes (l : list N) : string :=
  string_of_list_ascii (map ascii_of_N l).

(** [s.strip()]. *)
Definition strip (s : string) : string :=
  let l := lstrip_with whitespace (length (codes s)) (codes s) in
  let r :=
    lstrip_with (map (@rev N) whitespace) (length l) (rev l) in
  of_codes (rev r).

End Text.

(* ===================================================================== *)
(** ** The credential codec                                               *)
(* ===================================================================== *)

(** The [cryptography.fernet.Fernet] object built from [ENCRYPTION_KEY].
    [fernet_encrypt] takes the fresh material of one call (current time
    and initialisation vector) besides the message; [fernet_decrypt]
    returns [None] where the library raises [InvalidToken]. *)
Class Fernet := {
  fernet_encrypt : list byte -> list byte -> list byte;
  fernet_decrypt : list byte -> option (list byte)
}.

(** The contract of the library: a token made with the key decrypts, with
    the same key, to the message it was made from. *)
Class FernetCorrect (F : Fernet) : Prop :=
  fernet_decrypt_encrypt :
    forall iv msg, fernet_decrypt (fernet_encrypt iv msg) = Some msg.

Module Codec.

Import Text.

Definition separator : ascii := "|"%char.

(** [f"{roll_no}|{nonce}"]. *)
Definition payload_of (roll_no nonce : string) : string :=
  (roll_no ++ String separator nonce)%string.

(** [base64.urlsafe_b64encode(os.urandom(6)).decode("utf-8")], where
    [rnd] is the result of [os.urandom(6)]. *)
Definition make_nonce (rnd : list byte) : string :=
  string_of_list_byte (Base64.urlsafe_b64encode rnd).

(** [fernet.encrypt(payload.encode("utf-8"))]. *)
Definition encrypt_payload `{Fernet} (iv : list byte) (payload : string)
    : list byte :=
  fernet_encrypt iv (encode_utf8 payload).

(** [make_token]. *)
Definition make_token `{Fernet} (iv rnd : list byte) (roll_no : string)
    : list byte :=
  let nonce := make_nonce rnd in
  let payload := payload_of roll_no nonce in
  encrypt_payload iv payload.

(** The text [generate_qr_image_from_token] puts in the QR symbol and
    returns as [token_b64]. *)
Definition token_b64_of (token : list byte) : string :=
  string_of_list_byte (Base64.urlsafe_b64encode token).

(** The encoding of an identifier and a given nonce: what [make_token]
    followed by [generate_qr_image_from_token] computes once the nonce is
    drawn. *)
Definition encode `{Fernet} (iv : list byte) (roll_no nonce : string)
    : string :=
  token_b64_of (encrypt_payload iv (payload_of roll_no nonce)).

(** The decode block of [QRTransformer.recv]; [None] is the
    [except Exception] branch. *)
Definition decode `{Fernet} (qr_data : string) : option (string * string) :=
  match Base64.urlsafe_b64decode qr_data with
  | None => None
  | Some token_bytes =>
      match fernet_decrypt token_bytes with
      | None => None
      | Some plain =>
          match decode_utf8 plain with
          | None => None
          | Some payload =>
              match split separator payload with
              | [roll_no; nonce] => Some (strip roll_no, nonce)
              | _ => None
              end
          end
      end
  end.

End Codec.

(* ===================================================================== *)
(** ** The SQLite store ([attendance.db])                                 *)
(* ===================================================================== *)

(** A row of the table [students]. *)
Module Students.
Record row := {
  roll_no : string;
  name : string;
  email : string;
  token_b64 : string;
  created_at : string
}.
End Students.

(** A row of the table [attendance]. *)
Module Attendance.
Record row := {
  id : Z;
  roll_no : string;
  timestamp_iso : string;
  source : string;
  note : string
}.
End Attendance.

(** The dictionary the two student look-ups return. *)
Module Student.
Record t := { roll_no : string; name : string; email : string }.
End Student.

(** The database: the rows of the two tables in row order, and the
    counter SQLite keeps for the [AUTOINCREMENT] key of [attendance]. *)
Record Db := {
  students : list Students.row;
  attendance : list Attendance.row;
  attendance_seq : Z
}.

Inductive exn := OperationalError.

(** What the verification code does, in order: the calls it makes to the
    codec and to the store. *)
Inductive event :=
  | Decode (qr_data : string)
  | SelectStudentByRoll (roll : string)
  | SelectStudentByToken (token_b64 : string)
  | SelectAttendance (roll : string)
  | InsertAttendance (roll : string) (committed : bool)
  | Sleep.

Module Store.

(** The database once both tables are created and still empty. *)
Definition empty_db : Db :=
  {| students := []; attendance := []; attendance_seq := 0 |}.

(** [init_db]: [CREATE TABLE IF NOT EXISTS] leaves existing tables and
    their rows as they are. *)
Definition init_db (db : Db) : Db := db.

(** [save_student_token_db]: [INSERT OR REPLACE] on the table whose
    primary key is [roll_no] deletes the rows with that key, then inserts
    the new row; [created_at] is the result of [datetime('now')]. *)
Definition save_student_token_db (db : Db)
    (roll name email token_b64 created_at : string) : Db :=
  {| students :=
       List.filter (fun r => negb (String.eqb (Students.roll_no r) roll))
         (students db)
       ++ [ {| Students.roll_no := roll; Students.name := name;
               Students.email := email; Students.token_b64 := token_b64;
               Students.created_at := created_at |} ];
     attendance := attendance db;
     attendance_seq := attendance_seq db |}.

Definition student_of (r : Students.row) : Student.t :=
  {| Student.roll_no := Students.roll_no r;
     Student.name := Students.name r;
     Student.email := Students.email r |}.

(** [get_student_by_roll]. *)
Definition get_student_by_roll (db : Db) (roll : string)
    : option Student.t :=
  student_of <$>
    find (fun r => String.eqb (Students.roll_no r) roll) (students db).

(** [get_student_by_token_b64]. *)
Definition get_student_by_token_b64 (db : Db) (token_b64 : string)
    : option Student.t :=
  student_of <$>
    find (fun r => String.eqb (Students.token_b64 r) token_b64)
         (students db).

(** [attendance_exists]. *)
Definition attendance_exists (db : Db) (roll : string) : bool :=
  existsb (fun r => String.eqb (Attendance.roll_no r) roll) (attendance db).

(** The [INSERT INTO attendance] of [add_attendance], committed. *)
Definition insert_attendance (db : Db) (roll ts source note : string)
    : Db :=
  let next := (attendance_seq db + 1)%Z in
  {| students := students db;
     attendance :=
       attendance db
       ++ [ {| Attendance.id := next; Attendance.roll_no := roll;
               Attendance.timestamp_iso := ts; Attendance.source := source;
               Attendance.note := note |} ];
     attendance_seq := next |}.

Inductive add_result :=
  | Returned (ts : string)
  | Raised (e : exn).

(** The loop of [add_attendance], entered with [tries] failures so far.
    [busy] tells, for each coming attempt, whether SQLite raises
    [OperationalError] (an attempt past the end of the list succeeds);
    [utcnow k] is the clock reading of the attempt made after [k]
    failures.  [limit] is the constant [tries] is compared with: 8 in
    [verify_qr2.py], 5 in [verify_qr_app.py]. *)
Fixpoint add_attendance_from (limit : nat) (utcnow : nat -> string)
    (busy : list bool) (tries : nat) (db : Db) (roll source note : string)
    : add_result * Db * list event :=
  match busy with
  | true :: busy' =>
      let tries' := S tries in
      if (limit <? tries')%nat then
        (Raised OperationalError, db, [InsertAttendance roll false])
      else
        let '(r, db', tr) :=
          add_attendance_from limit utcnow busy' tries' db roll source note
        in (r, db', InsertAttendance roll false :: Sleep :: tr)
  | _ =>
      let ts := utcnow tries in
      (Returned ts, insert_attendance db roll ts source note,
       [InsertAttendance roll true])
  end.

(** [add_attendance]. *)
Definition add_attendance (limit : nat) (utcnow : nat -> string)
    (busy : list bool) (db : Db) (roll source note : string)
    : add_result * Db * list event :=
  add_attendance_from limit utcnow busy 0 db roll source note.

(** The arguments of one call of [save_student_token_db], with the
    reading of [datetime('now')]. *)
Record issuance := {
  iss_roll : string;
  iss_name : string;
  iss_email : string;
  iss_token_b64 : string;
  iss_created_at : string
}.

Definition save_issuance (db : Db) (i : issuance) : Db :=
  save_student_token_db db (iss_roll i) (iss_name i) (iss_email i)
    (iss_token_b64 i) (iss_created_at i).

(** The calls of [save_student_token_db] made by a run of the issuance
    script, in order. *)
Definition save_all (calls : list issuance) (db : Db) : Db :=
  fold_left save_issuance calls db.

(** The rows of [students] whose key is [roll]. *)
Definition rows_of (db : Db) (roll : string) : list Students.row :=
  List.filter (fun r => String.eqb (Students.roll_no r) roll)
    (students db).

(** The rows of [attendance] recorded for [roll]. *)
Definition records_of (db : Db) (roll : string) : list Attendance.row :=
  List.filter (fun r => String.eqb (Attendance.roll_no r) roll)
    (attendance db).

(** The row [save_student_token_db] writes. *)
Definition row_of (i : issuance) : Students.row :=
  {| Students.roll_no := iss_roll i; Students.name := iss_name i;
     Students.email := iss_email i; Students.token_b64 := iss_token_b64 i;
     Students.created_at := iss_created_at i |}.

(** The row [add_attendance] writes in [db]. *)
Definition record_of (db : Db) (roll ts source note : string)
    : Attendance.row :=
  {| Attendance.id := (attendance_seq db + 1)%Z; Attendance.roll_no := roll;
     Attendance.timestamp_iso := ts; Attendance.source := source;
     Attendance.note := note |}.

(** The number of insert attempts, and of calls of [time.sleep(0.1)], in
    a trace. *)
Definition attempts (tr : list event) : nat :=
  length (List.filter (fun e => match e with InsertAttendance _ _ => true
                                | _ => false end) tr).

Definition sleeps (tr : list event) : nat :=
  length (List.filter (fun e => match e with Sleep => true
                                | _ => false end) tr).

(** No participant has more than one row in [attendance]. *)
Definition at_most_once (db : Db) : Prop :=
  forall roll, (length (records_of db roll) <= 1)%nat.

(** The student look-ups of a trace, in order. *)
Definition is_lookup (e : event) : bool :=
  match e with
  | SelectStudentByRoll _ | SelectStudentByToken _ => true
  | _ => false
  end.

Definition lookups (tr : list event) : list event :=
  List.filter is_lookup tr.

(** [all_busy n busy]: the next [n] insert attempts all meet a locked
    database. *)
Fixpoint all_busy (n : nat) (busy : list bool) : bool :=
  match n with
  | O => true
  | S n' =>
      match busy with
      | true :: busy' => all_busy n' busy'
      | _ => false
      end
  end.

End Store.

(* ===================================================================== *)
(** ** The verification engine ([QRTransformer])                          *)
(* ===================================================================== *)

Module Engine.

Import Store.

(** The constant compared with [tries] in [add_attendance]. *)
Definition limit_qr2 : nat := 8.
Definition limit_app : nat := 5.

(** What one handling of a symbol reads from outside the program:
    [time.time()], the clock of [datetime.utcnow()] and the state of the
    database lock over the coming insert attempts. *)
Record Env := {
  now : Q;
  utcnow : nat -> string;
  busy : list bool
}.

(** The outcome announced for a symbol (the toast of [verify_qr2.py], the
    line printed by [verify_qr_app.py]). *)
Inductive outcome :=
  | Invalid
  | Unknown
  | Duplicate (roll : string)
  | Verified (student : Student.t) (roll : string) (ts : string).

(** How the handling of one symbol ends: without any outcome (the
    debounce [continue]), with an outcome, or with an exception that
    leaves [recv]. *)
Inductive result :=
  | Suppressed
  | Emitted (o : outcome)
  | Propagated (e : exn).

Record Handled := {
  result_of : result;
  last_seen_of : gmap string Q;
  db_of : Db;
  trace_of : list event
}.

Definition Qlt_bool (x y : Q) : bool := negb (Qle_bool y x).

(** The debounce window, in seconds. *)
Definition window : Q := 3.

(** [qr_data in self.last_seen and now - self.last_seen[qr_data] < 3]. *)
Definition suppressed (last_seen : gmap string Q) (qr_data : string)
    (now : Q) : bool :=
  match last_seen !! qr_data with
  | Some t => Qlt_bool (now - t) window
  | None => false
  end.

(** The two look-ups of [recv]: by roll number, then by the scanned
    text. *)
Definition find_student (db : Db) (roll_no qr_data : string)
    : option Student.t * list event :=
  match get_student_by_roll db roll_no with
  | Some student => (Some student, [SelectStudentByRoll roll_no])
  | None =>
      (get_student_by_token_b64 db qr_data,
       [SelectStudentByRoll roll_no; SelectStudentByToken qr_data])
  end.

(** The end of the loop body: [attendance_exists], then
    [add_attendance]. *)
Definition check_and_record (limit : nat) (env : Env) (db : Db)
    (student : Student.t) (roll_no : string) : result * Db * list event :=
  if attendance_exists db roll_no then
    (Emitted (Duplicate roll_no), db, [SelectAttendance roll_no])
  else
    let '(r, db', tr) :=
      add_attendance limit (utcnow env) (busy env) db roll_no
        "webrtc_live" ""
    in
    match r with
    | Returned ts =>
        (Emitted (Verified student roll_no ts), db',
         SelectAttendance roll_no :: tr)
    | Raised e => (Propagated e, db', SelectAttendance roll_no :: tr)
    end.

(** The body of the loop of [QRTransformer.recv] for one decoded symbol
    whose text is [qr_data]. *)
Definition handle `{Fernet} (limit : nat) (env : Env)
    (last_seen : gmap string Q) (db : Db) (qr_data : string) : Handled :=
  if suppressed last_seen qr_data (now env) then
    {| result_of := Suppressed; last_seen_of := last_seen; db_of := db;
       trace_of := [] |}
  else
    let last_seen' := <[qr_data := now env]> last_seen in
    match Codec.decode qr_data with
    | None =>
        {| result_of := Emitted Invalid; last_seen_of := last_seen';
           db_of := db; trace_of := [Decode qr_data] |}
    | Some (roll_no, nonce) =>
        match find_student db roll_no qr_data with
        | (None, tr) =>
            {| result_of := Emitted Unknown; last_seen_of := last_seen';
               db_of := db; trace_of := Decode qr_data :: tr |}
        | (Some student, tr) =>
            let '(r, db', tr') :=
              check_and_record limit env db student roll_no in
            {| result_of := r; last_seen_of := last_seen'; db_of := db';
               trace_of := Decode qr_data :: tr ++ tr' |}
        end
    end.

(** [QRTransformer.recv] on a frame in which [pyzbar] found the symbols
    [symbols], each with the readings of its handling.  A symbol whose
    data is not UTF-8 is skipped; an exception ends the call.  The result
    lists how the symbols handled so far ended. *)
Fixpoint recv `{Fernet} (limit : nat) (symbols : list (Env * list byte))
    (last_seen : gmap string Q) (db : Db)
    : list result * gmap string Q * Db :=
  match symbols with
  | [] => ([], last_seen, db)
  | (env, data) :: rest =>
      match Text.decode_utf8 data with
      | None => recv limit rest last_seen db
      | Some qr_data =>
          let h := handle limit env last_seen db qr_data in
          match result_of h with
          | Propagated e =>
              ([Propagated e], last_seen_of h, db_of h)
          | r =>
              let '(rs, ls, db') :=
                recv limit rest (last_seen_of h) (db_of h) in
              (r :: rs, ls, db')
          end
      end
  end.

(** Symbols handled one after the other on the same [QRTransformer],
    each in a call of [recv] of its own (an exception ends that call
    only). *)
Fixpoint handle_all `{Fernet} (limit : nat) (scans : list (Env * string))
    (last_seen : gmap string Q) (db : Db) : gmap string Q * Db :=
  match scans with
  | [] => (last_seen, db)
  | (env, qr_data) :: rest =>
      let h := handle limit env last_seen db qr_data in
      handle_all limit rest (last_seen_of h) (db_of h)
  end.

(** The operations of the system that reach the database: the creation
    of the tables, the issuance of a credential, the recording of an
    attendance, and a call of [recv] on some [QRTransformer]. *)
Inductive operation :=
  | InitDb
  | SaveStudent (i : issuance)
  | AddAttendance (limit : nat) (utcnow : nat -> string) (busy : list bool)
      (roll source note : string)
  | Recv (limit : nat) (symbols : list (Env * list byte))
      (last_seen : gmap string Q).

Definition apply `{Fernet} (db : Db) (o : operation) : Db :=
  match o with
  | InitDb => init_db db
  | SaveStudent i => save_issuance db i
  | AddAttendance limit utcnow busy roll source note =>
      (add_attendance limit utcnow busy db roll source note).1.2
  | Recv limit symbols last_seen => (recv limit symbols last_seen db).2
  end.

Definition apply_all `{Fernet} (ops : list operation) (db : Db) : Db :=
  fold_left apply ops db.

(** The operations the two programs make: all but a bare call of
    [add_attendance], which only [recv] calls. *)
Definition of_programs (o : operation) : bool :=
  match o with
  | AddAttendance _ _ _ _ _ _ => false
  | _ => true
  end.

End Engine.

(* ===================================================================== *)
(** ** Several verification calls on one database                         *)
(* ===================================================================== *)

Module Calls.

Import Store Engine.

(** One handling of a symbol: its readings, the [last_seen] of the
    [QRTransformer] that runs it and the scanned text. *)
Record call := {
  call_env : Env;
  call_last_seen : gmap string Q;
  call_qr : string
}.

(** The calls run one after the other, each to its end. *)
Fixpoint run_serial `{Fernet} (limit : nat) (cs : list call) (db : Db)
    : list result * Db :=
  match cs with
  | [] => ([], db)
  | c :: cs' =>
      let h := handle limit (call_env c) (call_last_seen c) db (call_qr c) in
      let '(rs, db') := run_serial limit cs' (db_of h) in
      (result_of h :: rs, db')
  end.

(** [ready db roll c]: the call [c] passes the debounce, decodes to
    [roll] and finds a student in [db]. *)
Definition ready `{Fernet} (db : Db) (roll : string) (c : call) : Prop :=
  suppressed (call_last_seen c) (call_qr c) (now (call_env c)) = false /\
  fst <$> Codec.decode (call_qr c) = Some roll /\
  (find_student db roll (call_qr c)).1 <> None.

(** Where a call stands between its two accesses to the store: before
    [attendance_exists], between it and [add_attendance], or at its
    end. *)
Inductive pc :=
  | AtCheck
  | AtRecord
  | Done (r : result).

(** A call that has decoded its symbol to [th_roll] and found
    [th_student]. *)
Record thread := {
  th_env : Env;
  th_student : Student.t;
  th_roll : string;
  th_pc : pc
}.

Definition at_pc (t : thread) (p : pc) : thread :=
  {| th_env := th_env t; th_student := th_student t; th_roll := th_roll t;
     th_pc := p |}.

(** One access to the store by one call: each is a transaction of its
    own, on a connection of its own. *)
Definition step (limit : nat) (db : Db) (t : thread) : Db * thread :=
  match th_pc t with
  | AtCheck =>
      if attendance_exists db (th_roll t) then
        (db, at_pc t (Done (Emitted (Duplicate (th_roll t)))))
      else (db, at_pc t AtRecord)
  | AtRecord =>
      let '(r, db', _) :=
        add_attendance limit (utcnow (th_env t)) (busy (th_env t)) db
          (th_roll t) "webrtc_live" ""
      in
      match r with
      | Returned ts =>
          (db', at_pc t (Done (Emitted
                  (Verified (th_student t) (th_roll t) ts))))
      | Raised e => (db', at_pc t (Done (Propagated e)))
      end
  | Done _ => (db, t)
  end.

(** The calls [ts] run under the schedule [sched], which names the call
    that makes the next access. *)
Fixpoint run_schedule (limit : nat) (sched : list nat) (db : Db)
    (ts : list thread) : Db * list thread :=
  match sched with
  | [] => (db, ts)
  | i :: sched' =>
      match ts !! i with
      | None => run_schedule limit sched' db ts
      | Some t =>
          let '(db', t') := step limit db t in
          run_schedule limit sched' db' (<[i := t']> ts)
      end
  end.

End Calls.

(* ===================================================================== *)
(** ** The issuance script ([generate_qr_and_email.py])                   *)
(* ===================================================================== *)

Module Issuance.

Import Text Codec Store.

(** A cell of the frame read by [pd.read_csv(STUDENTS_CSV, dtype=str)]:
    a text, or nothing (pandas puts [NaN], a float, there). *)
Definition cell : Type := option string.

(** A row of the frame: its cells in the three columns the script
    reads. *)
Record csv_row := {
  csv_name : cell;
  csv_roll_no : cell;
  csv_email : cell
}.

(** The frame: the names of its columns, and its rows. *)
Record DataFrame := {
  columns : list string;
  rows : list csv_row
}.

(** What the [except Exception] of the loop catches: the [AttributeError]
    of [.strip()] on a missing cell, a failure while the image is built
    or written to [qrs/], a failure of [send_email_with_attachment]. *)
Inductive row_error :=
  | AttributeError
  | RenderError
  | DeliveryError.

(** What the handling of one row reads from outside the program: the
    fresh material of [fernet.encrypt], the result of [os.urandom(6)],
    the reading of [datetime('now')], and whether the image and the mail
    fail. *)
Record RowEnv := {
  row_iv : list byte;
  row_rnd : list byte;
  row_created_at : string;
  render_fails : bool;
  delivery_fails : bool
}.

Definition required_columns : list string := ["name"; "roll_no"; "email"].

(** The first of the required columns that the frame lacks. *)
Definition missing_column (df : DataFrame) : option string :=
  find (fun c => negb (existsb (String.eqb c) (columns df)))
       required_columns.

(** The body of the loop of [main] for one row: the error caught, if any,
    and the database after it. *)
Definition issue_row `{Fernet} (env : RowEnv) (db : Db) (row : csv_row)
    : option row_error * Db :=
  match csv_name row, csv_roll_no row, csv_email row with
  | Some name, Some roll, Some email =>
      let name := strip name in
      let roll := strip roll in
      let email := strip email in
      let token := make_token (row_iv env) (row_rnd env) roll in
      let token_b64 := token_b64_of token in
      if render_fails env then (Some RenderError, db)
      else
        let db' :=
          save_student_token_db db roll name email token_b64
            (row_created_at env) in
        if delivery_fails env then (Some DeliveryError, db')
        else (None, db')
  | _, _, _ => (Some AttributeError, db)
  end.

(** The counters of [main] and the database. *)
Record Summary := {
  sent : nat;
  errs : list (cell * cell * row_error);
  db_after : Db
}.

(** The loop of [main] from row number [idx] on; [env idx] holds the
    readings of that row. *)
Fixpoint issue_rows `{Fernet} (env : nat -> RowEnv) (idx : nat)
    (rs : list csv_row) (acc : Summary) : Summary :=
  match rs with
  | [] => acc
  | row :: rest =>
      let '(e, db') := issue_row (env idx) (db_after acc) row in
      issue_rows env (S idx) rest
        match e with
        | None =>
            {| sent := S (sent acc); errs := errs acc; db_after := db' |}
        | Some err =>
            {| sent := sent acc;
               errs := errs acc ++ [(csv_roll_no row, csv_email row, err)];
               db_after := db' |}
        end
  end.

(** How [main] ends: with the [RuntimeError] for a missing column, or
    with its summary. *)
Inductive main_result :=
  | Fatal (column : string) (db : Db)
  | Completed (s : Summary).

(** [main]. *)
Definition main `{Fernet} (env : nat -> RowEnv) (df : DataFrame) (db : Db)
    : main_result :=
  let db := init_db db in
  match missing_column df with
  | Some column => Fatal column db
  | None =>
      Completed
        (issue_rows env 0 (rows df)
           {| sent := 0; errs := []; db_after := db |})
  end.

(** The call of [save_student_token_db] the handling of a row makes, if
    it gets that far. *)
Definition issuance_of `{Fernet} (env : RowEnv) (row : csv_row)
    : option issuance :=
  match csv_name row, csv_roll_no row, csv_email row with
  | Some name, Some roll, Some email =>
      if render_fails env then None
      else
        Some {| iss_roll := strip roll; iss_name := strip name;
                iss_email := strip email;
                iss_token_b64 :=
                  token_b64_of
                    (make_token (row_iv env) (row_rnd env) (strip roll));
                iss_created_at := row_created_at env |}
  | _, _, _ => None
  end.

Fixpoint issuances `{Fernet} (env : nat -> RowEnv) (idx : nat)
    (rs : list csv_row) : list issuance :=
  match rs with
  | [] => []
  | row :: rest =>
      match issuance_of (env idx) row with
      | Some i => i :: issuances env (S idx) rest
      | None => issuances env (S idx) rest
      end
  end.

(** A row of [students] as the script writes it: its token is the text
    of a credential made for its roll number, which is a stripped text
    without the separator. *)
Definition issued_row `{Fernet} (r : Students.row) : Prop :=
  is_str (Students.roll_no r) = true /\
  strip (Students.roll_no r) = Students.roll_no r /\
  exists iv rnd,
    Students.token_b64 r
    = token_b64_of (make_token iv rnd (Students.roll_no r)).

End Issuance.

(* ===================================================================== *)
(** ** The log view of the dashboard ([Admin / Logs])                     *)
(* ===================================================================== *)

Module Admin.

Import Store.

(** [SELECT roll_no, name, email FROM students]. *)
Definition select_students (db : Db) : list Student.t :=
  map student_of (students db).

(** [df_att.merge(df_students, on="roll_no", how="left")]: every row of
    the left frame, in order, once for each row of the right frame with
    its roll number, or once with nothing if there is none. *)
Definition merge_left (df_att : list Attendance.row)
    (df_students : list Student.t)
    : list (Attendance.row * option Student.t) :=
  flat_map
    (fun a =>
       match List.filter
               (fun s => String.eqb (Student.roll_no s)
                           (Attendance.roll_no a)) df_students with
       | [] => [(a, None)]
       | matches => map (fun s => (a, Some s)) matches
       end)
    df_att.

End Admin.

(* ===================================================================== *)
(** ** Data to run the definitions on                                     *)
(* ===================================================================== *)

Module Demo.

Import Store Engine.

Definition mask (b : byte) : byte :=
  Bytes.of_N (N.lxor (Byte.to_N b) 90).

(** A stand-in for the Fernet object with the contract of the library: a
    version byte, then the message under a fixed mask.  It offers no
    secrecy; it only lets the codec and the engine be evaluated. *)
Definition fernet : Fernet :=
  {| fernet_encrypt := fun _ msg => "128"%byte :: map mask msg;
     fernet_decrypt := fun token =>
       match token with
       | b :: rest =>
           if Byte.eqb b "128"%byte then Some (map mask rest) else None
       | [] => None
       end |}.

Definition iv : list byte := list_byte_of_string "0123456789abcdef".

Definition rnd : list byte := list_byte_of_string "random".

(** The text of the QR symbol issued to [R001]. *)
Definition qr_R001 : string :=
  Codec.token_b64_of (@Codec.make_token fernet iv rnd "R001").

Definition db0 : Db :=
  save_student_token_db empty_db "R001" "Asha" "asha@example.org" qr_R001
    "2025-01-01 00:00:00".

Definition clock (k : nat) : string := "2025-01-02T18:00:00Z".

Definition env_at (t : Q) (busy : list bool) : Env :=
  {| now := t; utcnow := clock; busy := busy |}.

Definition student_R001 : Student.t :=
  {| Student.roll_no := "R001"; Student.name := "Asha";
     Student.email := "asha@example.org" |}.

(** A call that has decoded [qr_R001] and found its student, about to
    look at [attendance]. *)
Definition thread_R001 : Calls.thread :=
  {| Calls.th_env := env_at 10 []; Calls.th_student := student_R001;
     Calls.th_roll := "R001"; Calls.th_pc := Calls.AtCheck |}.

(** A call of [recv] on the symbol of [R001], on a [QRTransformer] that
    has seen nothing yet. *)
Definition call_R001 : Calls.call :=
  {| Calls.call_env := env_at 10 []; Calls.call_last_seen := ∅;
     Calls.call_qr := qr_R001 |}.

(** The readings of the rows of a run of the issuance script: the mail
    of the second row fails. *)
Definition row_env (i : nat) : Issuance.RowEnv :=
  {| Issuance.row_iv := iv; Issuance.row_rnd := rnd;
     Issuance.row_created_at := "2025-01-01 00:00:00";
     Issuance.render_fails := false;
     Issuance.delivery_fails := Nat.eqb i 1 |}.

(** A frame of three rows, the last one without a name. *)
Definition frame : Issuance.DataFrame :=
  {| Issuance.columns := ["name"; "roll_no"; "email"];
     Issuance.rows :=
       [ {| Issuance.csv_name := Some " Asha ";
            Issuance.csv_roll_no := Some "R001 ";
            Issuance.csv_email := Some "asha@example.org" |};
         {| Issuance.csv_name := Some "Ben";
            Issuance.csv_roll_no := Some "R002";
            Issuance.csv_email := Some "ben@example.org" |};
         {| Issuance.csv_name := None;
            Issuance.csv_roll_no := Some "R003";
            Issuance.csv_email := Some "cy@example.org" |} ] |}.

(** Texts that differ from one another: [a] repeated [n] times. *)
Fixpoint text_of (n : nat) : string :=
  match n with
  | O => EmptyString
  | S n' => String "a" (text_of n')
  end.

(** [n] different texts, handled one after the other. *)
Definition scans (n : nat) : list (Env * string) :=
  map (fun i => (env_at 0 [], text_of i)) (seq 0 n).

End Demo.

(* ===================================================================== *)
(** * Properties                                                          *)
(* ===================================================================== *)

(* --------------------------------------------------------------------- *)
(** ** The definitions on small inputs                                    *)
(* --------------------------------------------------------------------- *)

Example b64_hello :
  Base64.urlsafe_b64encode (list_byte_of_string "hello") =
  list_byte_of_string "aGVsbG8=".
Proof. reflexivity. Qed.

Example b64_dec_hello :
  Base64.urlsafe_b64decode "aGVsbG8=" = Some (list_byte_of_string "hello").
Proof. vm_compute. reflexivity. Qed.

(** Characters outside the alphabet are skipped. *)
Example b64_dec_skip :
  Base64.urlsafe_b64decode "aG Vs bG8=" = Some (list_byte_of_string "hello").
Proof. vm_compute. reflexivity. Qed.

(** A last group without its padding is an error. *)
Example b64_dec_padding : Base64.urlsafe_b64decode "aGVsbG8" = None.
Proof. vm_compute. reflexivity. Qed.

Example strip_ex :
  Text.strip (String (ascii_of_N 9) " R001  ") = "R001"%string.
Proof. vm_compute. reflexivity. Qed.

(** U+00A0 at the front and U+2009 at the end are stripped too. *)
Example strip_nbsp :
  Text.strip (Text.of_codes [194; 160; 82; 49; 226; 128; 137]) = "R1"%string.
Proof. vm_compute. reflexivity. Qed.

Example split_ex :
  Text.split "|" "R001|abc" = ["R001"; "abc"]%string.
Proof. reflexivity. Qed.

Example split_ex2 :
  Text.split "|" "A|B|c" = ["A"; "B"; "c"]%string.
Proof. reflexivity. Qed.

(** An identifier with white space around it comes back stripped. *)
Example decode_strips :
  @Codec.decode Demo.fernet (@Codec.encode Demo.fernet Demo.iv " R1 " "n")
  = Some ("R1", "n")%string.
Proof. vm_compute. reflexivity. Qed.

(** [verify_qr2.py] gives up at the ninth failure, [verify_qr_app.py] at
    the sixth. *)
Example add_attendance_qr2_8 :
  (Store.add_attendance Engine.limit_qr2 Demo.clock (repeat true 8)
     Store.empty_db "R001" "webrtc_live" "").1.1
  = Store.Returned "2025-01-02T18:00:00Z".
Proof. reflexivity. Qed.

Example add_attendance_qr2_9 :
  (Store.add_attendance Engine.limit_qr2 Demo.clock (repeat true 9)
     Store.empty_db "R001" "webrtc_live" "").1.1
  = Store.Raised OperationalError.
Proof. reflexivity. Qed.

Example add_attendance_app_5 :
  (Store.add_attendance Engine.limit_app Demo.clock (repeat true 5)
     Store.empty_db "R001" "webrtc_live" "").1.1
  = Store.Returned "2025-01-02T18:00:00Z".
Proof. reflexivity. Qed.

Example add_attendance_app_6 :
  (Store.add_attendance Engine.limit_app Demo.clock (repeat true 6)
     Store.empty_db "R001" "webrtc_live" "").1.1
  = Store.Raised OperationalError.
Proof. reflexivity. Qed.

(* --------------------------------------------------------------------- *)
(** ** base64: the characters produced, and decoding what was encoded     *)
(* --------------------------------------------------------------------- *)

Module Base64Facts.

Import Base64.

Lemma to_N_lt (b : byte) : Byte.to_N b < 256.
Proof. pose proof (Byte.to_N_bounded b). lia. Qed.

Lemma of_to_N (b : byte) : Bytes.of_N (Byte.to_N b) = b.
Proof.
  unfold Bytes.of_N. rewrite N.mod_small by apply to_N_lt.
  now rewrite Byte.of_to_N.
Qed.

Lemma all_chars_ok : forallb char_ok (map N.of_nat (seq 0 64)) = true.
Proof. vm_compute. reflexivity. Qed.

Lemma char_ok_lt (n : N) :
  n < 64 ->
  value_of (char_of n) = Some n /\ Byte.eqb (char_of n) pad = false /\
  Bytes.is_ascii (char_of n) = true /\ Byte.to_N (char_of n) <> 124.
Proof.
  intros Hn. pose proof all_chars_ok as H.
  rewrite forallb_forall in H. specialize (H n).
  assert (Hin : In n (map N.of_nat (seq 0 64))).
  { apply in_map_iff. exists (N.to_nat n). split; [apply N2Nat.id|].
    apply in_seq. lia. }
  specialize (H Hin). unfold char_ok in H. cbv zeta in H.
  apply andb_prop in H. destruct H as [H H4].
  apply andb_prop in H. destruct H as [H H3].
  apply andb_prop in H. destruct H as [H1 H2].
  repeat split.
  - destruct (value_of (char_of n)) as [v|]; [|discriminate].
    apply N.eqb_eq in H1. now subst.
  - now apply negb_true_iff.
  - assumption.
  - apply negb_true_iff in H4. now apply N.eqb_neq.
Qed.

Lemma value_of_char_of (n : N) : n < 64 -> value_of (char_of n) = Some n.
Proof. intros Hn. apply (char_ok_lt n Hn). Qed.

Lemma char_of_not_pad (n : N) : n < 64 -> Byte.eqb (char_of n) pad = false.
Proof. intros Hn. apply (char_ok_lt n Hn). Qed.

Lemma char_of_ascii (n : N) : n < 64 -> Bytes.is_ascii (char_of n) = true.
Proof. intros Hn. apply (char_ok_lt n Hn). Qed.

Lemma char_of_not_bar (n : N) : n < 64 -> Byte.to_N (char_of n) <> 124.
Proof. intros Hn. apply (char_ok_lt n Hn). Qed.

(** Induction on a list of bytes three at a time, as the encoder reads
    it. *)
Lemma triples_ind (P : list byte -> Prop) :
  P [] -> (forall a, P [a]) -> (forall a b, P [a; b]) ->
  (forall a b c l, P l -> P (a :: b :: c :: l)) ->
  forall l, P l.
Proof.
  intros H0 H1 H2 H3.
  assert (H : forall l, P l /\ (forall a, P (a :: l)) /\
                        (forall a b, P (a :: b :: l))).
  { induction l as [|x l (IH0 & IH1 & IH2)]; [now auto|].
    repeat split; auto. }
  intros l. apply H.
Qed.

Ltac sextet_bounds :=
  repeat match goal with
  | b : byte |- _ =>
      lazymatch goal with
      | _ : Byte.to_N b < 256 |- _ => fail
      | _ => pose proof (to_N_lt b)
      end
  end.

Ltac euclid :=
  sextet_bounds; zify; Z.to_euclidean_division_equations; lia.

(** One decoding step on the character of a 6-bit group. *)
Lemma a2b_char (n : N) (s : list byte) (q : nat) (l : N) (p : nat) :
  n < 64 ->
  a2b_base64 (char_of n :: s) q l p =
  match q with
  | 0%nat => a2b_base64 s 1 n 0
  | 1%nat => cons (Bytes.of_N (l * 4 + n / 16)) <$> a2b_base64 s 2 (n mod 16) 0
  | 2%nat => cons (Bytes.of_N (l * 16 + n / 4)) <$> a2b_base64 s 3 (n mod 4) 0
  | _ => cons (Bytes.of_N (l * 64 + n)) <$> a2b_base64 s 0 0 0
  end.
Proof.
  intros Hn. cbn [a2b_base64].
  rewrite (char_of_not_pad n Hn), (value_of_char_of n Hn). reflexivity.
Qed.

Lemma of_N_eq (n : N) (b : byte) : n = Byte.to_N b -> Bytes.of_N n = b.
Proof. intros ->. apply of_to_N. Qed.

Lemma a2b_encode (bs : list byte) (l : N) (p : nat) :
  a2b_base64 (urlsafe_b64encode bs) 0 l p = Some bs.
Proof.
  revert l p. induction bs as [|a|a b|a b c rest IH] using triples_ind;
    intros l p.
  - reflexivity.
  - cbn [urlsafe_b64encode]. cbv zeta.
    do 2 (rewrite a2b_char by euclid).
    cbn. repeat f_equal. apply of_N_eq. euclid.
  - cbn [urlsafe_b64encode]. cbv zeta.
    do 3 (rewrite a2b_char by euclid).
    cbn. repeat f_equal; apply of_N_eq; euclid.
  - cbn [urlsafe_b64encode]. cbv zeta.
    do 4 (rewrite a2b_char by euclid).
    rewrite IH. cbn. repeat f_equal; apply of_N_eq; euclid.
Qed.

(** Every character of an encoding is an ASCII character other than the
    separator [|]. *)
Lemma plain_char_of (n : N) : n < 64 -> plain_char (char_of n).
Proof. intros Hn. split; apply (char_ok_lt n Hn). Qed.

Lemma plain_pad : plain_char pad.
Proof. split; [reflexivity | discriminate]. Qed.

Lemma url_safe_char_of (n : N) : n < 64 -> url_safe (char_of n).
Proof.
  intros Hn. right. unfold char_of. apply nth_In.
  change (length alphabet) with 64%nat. lia.
Qed.

Lemma url_safe_pad : url_safe pad.
Proof. now left. Qed.

(** The encoder writes URL-safe base64 text. *)
Lemma encode_url_safe (bs : list byte) :
  Forall url_safe (urlsafe_b64encode bs).
Proof.
  induction bs as [|a|a b|a b c rest IH] using triples_ind;
    cbn [urlsafe_b64encode]; cbv zeta;
    repeat (apply List.Forall_cons);
    try apply List.Forall_nil; try apply url_safe_pad; try assumption;
    apply url_safe_char_of; euclid.
Qed.

Lemma url_safe_plain (c : byte) : url_safe c -> plain_char c.
Proof.
  unfold url_safe. cbn.
  intros H.
  repeat (destruct H as [<-|H]; [split; [reflexivity|discriminate]|]).
  destruct H.
Qed.

Lemma encode_plain (bs : list byte) :
  Forall plain_char (urlsafe_b64encode bs).
Proof.
  eapply List.Forall_impl; [apply url_safe_plain | apply encode_url_safe].
Qed.

Lemma encode_ascii (bs : list byte) :
  forallb Bytes.is_ascii (urlsafe_b64encode bs) = true.
Proof.
  apply forallb_forall. intros c Hc.
  pose proof (encode_plain bs) as H. rewrite List.Forall_forall in H.
  apply (H c Hc).
Qed.

(** [urlsafe_b64decode] undoes [urlsafe_b64encode]. *)
Lemma urlsafe_b64decode_encode (bs : list byte) :
  urlsafe_b64decode (string_of_list_byte (urlsafe_b64encode bs)) = Some bs.
Proof.
  unfold urlsafe_b64decode. cbv zeta.
  rewrite list_byte_of_string_of_list_byte, encode_ascii.
  apply a2b_encode.
Qed.

End Base64Facts.

(* --------------------------------------------------------------------- *)
(** ** Text: validity of concatenations, splitting at the separator       *)
(* --------------------------------------------------------------------- *)

Module TextFacts.

Import Text.

Lemma append_String (c : ascii) (a b : string) :
  (String c a ++ b)%string = String c (a ++ b).
Proof. reflexivity. Qed.

Lemma append_Empty (b : string) : (EmptyString ++ b)%string = b.
Proof. reflexivity. Qed.

Lemma bytes_app (a b : string) :
  list_byte_of_string (a ++ b) =
  (list_byte_of_string a ++ list_byte_of_string b)%list.
Proof.
  unfold list_byte_of_string.
  induction a as [|c a IH]; [reflexivity|].
  rewrite append_String. cbn. now rewrite IH.
Qed.

Lemma utf8_run_app (st : utf8_state) (a b : list byte) :
  utf8_run st (a ++ b) = utf8_run (utf8_run st a) b.
Proof. unfold utf8_run. apply fold_left_app. Qed.

Lemma utf8_valid_Start (bs : list byte) :
  utf8_valid bs = true -> utf8_run Start bs = Start.
Proof. unfold utf8_valid. now destruct (utf8_run Start bs). Qed.

Lemma utf8_valid_app (a b : list byte) :
  utf8_valid a = true -> utf8_valid b = true -> utf8_valid (a ++ b) = true.
Proof.
  intros Ha Hb. unfold utf8_valid. rewrite utf8_run_app.
  rewrite (utf8_valid_Start a Ha). exact Hb.
Qed.

Lemma ascii_valid (bs : list byte) :
  forallb Bytes.is_ascii bs = true -> utf8_valid bs = true.
Proof.
  intros H. unfold utf8_valid.
  assert (Hrun : utf8_run Start bs = Start).
  { induction bs as [|b bs IH]; [reflexivity|].
    cbn in H. apply andb_prop in H. destruct H as [Hb Hbs].
    unfold utf8_run in *. cbn [fold_left].
    unfold utf8_step at 2. cbv zeta. unfold Bytes.is_ascii in Hb.
    rewrite Hb. now apply IH. }
  now rewrite Hrun.
Qed.

Lemma is_str_app (a b : string) :
  is_str a = true -> is_str b = true -> is_str (a ++ b) = true.
Proof. unfold is_str. rewrite bytes_app. apply utf8_valid_app. Qed.

Lemma split_no_sep (sep : ascii) (s : string) :
  contains sep s = false -> split sep s = [s].
Proof.
  induction s as [|c s IH]; [reflexivity|].
  cbn. intros H. apply orb_false_elim in H. destruct H as [Hc Hs].
  rewrite Hc, (IH Hs). reflexivity.
Qed.

Lemma split_app_sep (sep : ascii) (a b : string) :
  contains sep a = false ->
  split sep (a ++ String sep b) = a :: split sep b.
Proof.
  induction a as [|c a IH]; intros H.
  - rewrite append_Empty. cbn. now rewrite Ascii.eqb_refl.
  - cbn in H. apply orb_false_elim in H. destruct H as [Hc Ha].
    rewrite append_String. cbn. rewrite Hc, (IH Ha). reflexivity.
Qed.

Lemma count_no_sep (sep : ascii) (s : string) :
  contains sep s = false -> count sep s = 0%nat.
Proof.
  induction s as [|c s IH]; [reflexivity|].
  cbn. intros H. apply orb_false_elim in H. destruct H as [Hc Hs].
  rewrite Hc, (IH Hs). reflexivity.
Qed.

Lemma count_app (sep : ascii) (a b : string) :
  count sep (a ++ b) = (count sep a + count sep b)%nat.
Proof.
  induction a as [|c a IH]; [reflexivity|].
  rewrite append_String. cbn. rewrite IH. lia.
Qed.

(** A text made of ASCII characters other than [|] does not contain the
    separator. *)
Lemma plain_no_sep (bs : list byte) :
  Forall Base64.plain_char bs ->
  contains "|" (string_of_list_byte bs) = false.
Proof.
  induction 1 as [|b bs [_ Hb] _ IH]; [reflexivity|].
  unfold string_of_list_byte in *. cbn. rewrite IH, orb_false_r.
  apply Ascii.eqb_neq. intros Heq. apply Hb.
  apply (f_equal byte_of_ascii) in Heq.
  rewrite byte_of_ascii_of_byte in Heq. now subst b.
Qed.

End TextFacts.

(* --------------------------------------------------------------------- *)
(** ** The codec: decoding an encoded credential                          *)
(* --------------------------------------------------------------------- *)

Module CodecFacts.

Import Text Codec TextFacts.

Lemma mask_mask (b : byte) : Demo.mask (Demo.mask b) = b.
Proof. destruct b; reflexivity. Qed.

Lemma demo_fernet_correct : FernetCorrect Demo.fernet.
Proof.
  intros iv msg. cbn. f_equal. rewrite map_map.
  induction msg as [|b msg IH]; [reflexivity|].
  cbn. now rewrite mask_mask, IH.
Qed.

Lemma is_str_sep (nonce : string) :
  is_str nonce = true -> is_str (String separator nonce) = true.
Proof.
  intros H. change (String separator nonce)
    with (String separator EmptyString ++ nonce)%string.
  apply is_str_app; [reflexivity | exact H].
Qed.

Lemma is_str_payload (roll_no nonce : string) :
  is_str roll_no = true -> is_str nonce = true ->
  is_str (payload_of roll_no nonce) = true.
Proof.
  intros Hr Hn. unfold payload_of. apply is_str_app; [exact Hr|].
  now apply is_str_sep.
Qed.

Lemma decode_utf8_encode (s : string) :
  is_str s = true -> decode_utf8 (encode_utf8 s) = Some s.
Proof.
  intros H. unfold decode_utf8, encode_utf8. unfold is_str in H.
  rewrite H. now rewrite string_of_list_byte_of_string.
Qed.

(** Decoding a token made from a payload comes down to splitting the
    payload. *)
Lemma decode_token_of_payload {F : Fernet} {HF : FernetCorrect F}
    (iv : list byte) (payload : string) :
  is_str payload = true ->
  decode (token_b64_of (encrypt_payload iv payload)) =
  match split separator payload with
  | [roll_no; nonce] => Some (strip roll_no, nonce)
  | _ => None
  end.
Proof.
  intros Hp. unfold decode, token_b64_of, encrypt_payload.
  rewrite Base64Facts.urlsafe_b64decode_encode.
  rewrite fernet_decrypt_encrypt.
  now rewrite (decode_utf8_encode payload Hp).
Qed.

Lemma split_payload (roll_no nonce : string) :
  contains separator roll_no = false ->
  contains separator nonce = false ->
  split separator (payload_of roll_no nonce) = [roll_no; nonce].
Proof.
  intros Hr Hn. unfold payload_of.
  rewrite (split_app_sep separator roll_no nonce Hr).
  now rewrite (split_no_sep separator nonce Hn).
Qed.

Lemma decode_encode_strip {F : Fernet} {HF : FernetCorrect F} (iv : list byte)
    (roll_no nonce : string) :
  is_str roll_no = true -> is_str nonce = true ->
  contains separator roll_no = false ->
  contains separator nonce = false ->
  decode (encode iv roll_no nonce) = Some (strip roll_no, nonce).
Proof.
  intros Hr Hn Hsr Hsn. unfold encode.
  rewrite (decode_token_of_payload iv _ (is_str_payload _ _ Hr Hn)).
  now rewrite (split_payload _ _ Hsr Hsn).
Qed.

(** The nonce of an issued credential. *)
Lemma make_nonce_plain (rnd : list byte) :
  is_str (make_nonce rnd) = true /\
  contains separator (make_nonce rnd) = false.
Proof.
  unfold make_nonce. split.
  - unfold is_str. rewrite list_byte_of_string_of_list_byte.
    apply ascii_valid, Base64Facts.encode_ascii.
  - apply plain_no_sep, Base64Facts.encode_plain.
Qed.

End CodecFacts.

Module CodecClaims.

Import Text Codec TextFacts CodecFacts.

(** C2, as stated, fails: an identifier that contains the separator is
    encoded, and its token decodes to no pair at all (the split yields
    three parts). *)
Lemma decode_encode_fails_with_separator :
  ~ (forall (F : Fernet), FernetCorrect F ->
     forall (iv : list byte) (roll_no nonce : string),
       is_str roll_no = true -> is_str nonce = true ->
       decode (encode iv roll_no nonce) = Some (roll_no, nonce)).
Proof.
  intros H.
  specialize (H Demo.fernet demo_fernet_correct Demo.iv "A|B" "c2VlZA=="
                eq_refl eq_refl)%string.
  vm_compute in H. discriminate H.
Qed.

(** C2 (amended): for every identifier without the separator [|] and
    without white space at either end, and every nonce without the
    separator, decoding the encoded token gives back exactly the pair
    (identifier, nonce). *)
Theorem decode_encode {F : Fernet} {HF : FernetCorrect F} (iv : list byte)
    (roll_no nonce : string) :
  is_str roll_no = true -> is_str nonce = true ->
  contains separator roll_no = false ->
  contains separator nonce = false ->
  strip roll_no = roll_no ->
  decode (encode iv roll_no nonce) = Some (roll_no, nonce).
Proof.
  intros Hr Hn Hsr Hsn Hstrip.
  rewrite (decode_encode_strip iv roll_no nonce Hr Hn Hsr Hsn).
  now rewrite Hstrip.
Qed.

Lemma decode_encode_witness :
  @decode Demo.fernet (@encode Demo.fernet Demo.iv "R001" "c2VlZA==")
  = Some ("R001", "c2VlZA==")%string.
Proof.
  apply (@decode_encode Demo.fernet demo_fernet_correct Demo.iv
           "R001" "c2VlZA==")%string; vm_compute; reflexivity.
Defined.

(** C10: the nonce drawn at issuance is base64 text of the URL-safe
    alphabet and holds no [|]; so for an identifier without [|] the
    payload of the issued token holds exactly one separator, the token
    decrypts to that payload, the split gives the two parts, and the
    decode block returns a pair. *)
Theorem issued_token_splits {F : Fernet} {HF : FernetCorrect F}
    (iv rnd : list byte) (roll_no : string) :
  is_str roll_no = true ->
  contains separator roll_no = false ->
  let nonce := make_nonce rnd in
  let payload := payload_of roll_no nonce in
  Forall Base64.url_safe (list_byte_of_string nonce) /\
  contains separator nonce = false /\
  fernet_decrypt (make_token iv rnd roll_no) = Some (encode_utf8 payload) /\
  count separator payload = 1%nat /\
  split separator payload = [roll_no; nonce] /\
  decode (token_b64_of (make_token iv rnd roll_no))
  = Some (strip roll_no, nonce).
Proof.
  intros Hr Hsr nonce payload.
  destruct (make_nonce_plain rnd) as [Hn Hsn].
  repeat split.
  - unfold nonce, make_nonce. rewrite list_byte_of_string_of_list_byte.
    apply Base64Facts.encode_url_safe.
  - exact Hsn.
  - unfold make_token, encrypt_payload. apply fernet_decrypt_encrypt.
  - unfold payload, payload_of, nonce. rewrite count_app. cbn [count].
    rewrite (count_no_sep _ _ Hsr), (count_no_sep _ _ Hsn).
    now rewrite Ascii.eqb_refl.
  - now apply split_payload.
  - unfold make_token, nonce. cbv zeta.
    rewrite (decode_token_of_payload iv _ (is_str_payload _ _ Hr Hn)).
    now rewrite (split_payload _ _ Hsr Hsn).
Qed.

Lemma issued_token_splits_witness :
  @decode Demo.fernet
    (token_b64_of (@make_token Demo.fernet Demo.iv Demo.rnd "R001"))
  = Some ("R001"%string, make_nonce Demo.rnd).
Proof.
  apply (@issued_token_splits Demo.fernet demo_fernet_correct Demo.iv
           Demo.rnd "R001"%string); vm_compute; reflexivity.
Defined.

End CodecClaims.

(* --------------------------------------------------------------------- *)
(** ** The store                                                          *)
(* --------------------------------------------------------------------- *)

Module StoreFacts.

Import Store.

Lemma filter_neg_pos {A} (f : A -> bool) (l : list A) :
  List.filter f (List.filter (fun x => negb (f x)) l) = [].
Proof.
  induction l as [|x l IH]; [reflexivity|].
  cbn. destruct (f x) eqn:E; cbn; [exact IH|]. now rewrite E.
Qed.

Lemma filter_neg_other {A} (f g : A -> bool) (l : list A) :
  (forall x, g x = true -> f x = false) ->
  List.filter g (List.filter (fun x => negb (f x)) l) = List.filter g l.
Proof.
  intros H. induction l as [|x l IH]; [reflexivity|].
  cbn. destruct (g x) eqn:Eg.
  - rewrite (H x Eg). cbn. now rewrite Eg, IH.
  - destruct (f x); cbn; [exact IH|]. now rewrite Eg, IH.
Qed.

(** After an upsert the participant has exactly the row written. *)
Lemma rows_of_save_same (db : Db) (i : issuance) :
  rows_of (save_issuance db i) (iss_roll i) = [row_of i].
Proof.
  unfold rows_of, save_issuance, save_student_token_db. cbn [students].
  rewrite List.filter_app.
  rewrite (filter_neg_pos
             (fun r => String.eqb (Students.roll_no r) (iss_roll i))).
  cbn. now rewrite String.eqb_refl.
Qed.

(** The rows of the other participants are left as they are. *)
Lemma rows_of_save_other (db : Db) (i : issuance) (roll : string) :
  roll <> iss_roll i ->
  rows_of (save_issuance db i) roll = rows_of db roll.
Proof.
  intros Hne.
  unfold rows_of, save_issuance, save_student_token_db. cbn [students].
  rewrite List.filter_app. cbn.
  replace (iss_roll i =? roll)%string with false
    by (symmetry; apply String.eqb_neq; congruence).
  rewrite app_nil_r. apply filter_neg_other.
  intros x Hx. apply String.eqb_eq in Hx. apply String.eqb_neq. congruence.
Qed.

Lemma save_all_app (a b : list issuance) (db : Db) :
  save_all (a ++ b) db = save_all b (save_all a db).
Proof. unfold save_all. apply fold_left_app. Qed.

Lemma rows_of_save_le (db : Db) (i : issuance) (roll : string) :
  (length (rows_of db roll) <= 1)%nat ->
  (length (rows_of (save_issuance db i) roll) <= 1)%nat.
Proof.
  intros H. destruct (String.eqb_spec roll (iss_roll i)) as [->|Hne].
  - now rewrite rows_of_save_same.
  - now rewrite rows_of_save_other.
Qed.

Lemma rows_of_save_all_le (calls : list issuance) (db : Db) :
  (forall roll, (length (rows_of db roll) <= 1)%nat) ->
  forall roll, (length (rows_of (save_all calls db) roll) <= 1)%nat.
Proof.
  revert db. induction calls as [|i calls IH]; intros db H roll.
  - exact (H roll).
  - cbn. apply IH. intros r. now apply rows_of_save_le.
Qed.

(** [save_student_token_db] does not touch [attendance]. *)
Lemma attendance_save (db : Db) (i : issuance) :
  attendance (save_issuance db i) = attendance db.
Proof. reflexivity. Qed.

(** The loop of [add_attendance], from any number of earlier failures. *)
Lemma add_attendance_from_spec (limit : nat) (utcnow : nat -> string)
    (roll source note : string) (db : Db) (busy : list bool) :
  forall (tries : nat), (tries <= limit)%nat ->
  forall r db' tr,
    add_attendance_from limit utcnow busy tries db roll source note
    = (r, db', tr) ->
    if all_busy (S limit - tries) busy then
      r = Raised OperationalError /\ db' = db /\
      attempts tr = (S limit - tries)%nat /\ sleeps tr = (limit - tries)%nat
    else
      exists k, (tries <= k <= limit)%nat /\
        r = Returned (utcnow k) /\
        db' = insert_attendance db roll (utcnow k) source note /\
        attempts tr = S (k - tries) /\ sleeps tr = (k - tries)%nat.
Proof.
  induction busy as [|b busy IH]; intros tries Hle r db' tr Heq.
  - cbn in Heq. injection Heq as <- <- <-.
    replace (S limit - tries)%nat with (S (limit - tries)) by lia.
    cbn. exists tries. rewrite Nat.sub_diag. repeat split; lia.
  - destruct b.
    + cbn [add_attendance_from] in Heq. cbv zeta in Heq.
      destruct (limit <? S tries)%nat eqn:Hlim.
      * apply Nat.ltb_lt in Hlim. assert (tries = limit) by lia. subst.
        injection Heq as <- <- <-.
        replace (S limit - limit)%nat with 1%nat by lia.
        rewrite Nat.sub_diag. cbn. repeat split.
      * apply Nat.ltb_ge in Hlim.
        destruct (add_attendance_from limit utcnow busy (S tries) db roll
                    source note) as [[r0 db0] tr0] eqn:Hrec.
        injection Heq as <- <- <-.
        specialize (IH (S tries) Hlim r0 db0 tr0 Hrec).
        replace (S limit - tries)%nat with (S (limit - tries)) by lia.
        cbn [all_busy].
        replace (S limit - S tries)%nat with (limit - tries)%nat in IH
          by lia.
        destruct (all_busy (limit - tries) busy).
        -- destruct IH as (-> & -> & Ha & Hs).
           unfold attempts, sleeps in *. cbn. repeat split; lia.
        -- destruct IH as (k & Hk & -> & -> & Ha & Hs).
           exists k. unfold attempts, sleeps in *. cbn.
           repeat split; lia.
    + cbn in Heq. injection Heq as <- <- <-.
      replace (S limit - tries)%nat with (S (limit - tries)) by lia.
      cbn. exists tries. rewrite Nat.sub_diag. repeat split; lia.
Qed.

Lemma add_attendance_spec (limit : nat) (utcnow : nat -> string)
    (roll source note : string) (db : Db) (busy : list bool) r db' tr :
  add_attendance limit utcnow busy db roll source note = (r, db', tr) ->
  if all_busy (S limit) busy then
    r = Raised OperationalError /\ db' = db /\
    attempts tr = S limit /\ sleeps tr = limit
  else
    exists k, (k <= limit)%nat /\
      r = Returned (utcnow k) /\
      db' = insert_attendance db roll (utcnow k) source note /\
      attempts tr = S k /\ sleeps tr = k.
Proof.
  intros Heq. unfold add_attendance in Heq.
  pose proof (add_attendance_from_spec limit utcnow roll source note db
                busy 0 (Nat.le_0_l _) r db' tr Heq) as H.
  rewrite Nat.sub_0_r in H.
  destruct (all_busy (S limit) busy).
  - now rewrite Nat.sub_0_r in H.
  - destruct H as (k & Hk & H). exists k.
    rewrite Nat.sub_0_r in H. split; [lia | exact H].
Qed.

(** [add_attendance] only ever adds to [attendance], and leaves
    [students] as it is. *)
Lemma add_attendance_db (limit : nat) (utcnow : nat -> string)
    (roll source note : string) (db : Db) (busy : list bool) r db' tr :
  add_attendance limit utcnow busy db roll source note = (r, db', tr) ->
  students db' = students db /\
  match r with
  | Returned ts =>
      attendance db' = attendance db ++ [record_of db roll ts source note]
  | Raised _ => db' = db
  end.
Proof.
  intros Heq. pose proof (add_attendance_spec _ _ _ _ _ _ _ _ _ _ Heq) as H.
  destruct (all_busy (S limit) busy).
  - destruct H as (-> & -> & _). now split.
  - destruct H as (k & _ & -> & -> & _). now split.
Qed.

Lemma existsb_app_l {A} (f : A -> bool) (l l' : list A) :
  existsb f l = true -> existsb f (l ++ l') = true.
Proof. intros H. rewrite existsb_app, H. reflexivity. Qed.

(** [add_attendance] makes no student look-up. *)
Lemma lookups_add_attendance_from (limit : nat) (utcnow : nat -> string)
    (roll source note : string) (db : Db) (busy : list bool) :
  forall tries,
    lookups (add_attendance_from limit utcnow busy tries db roll source
               note).2 = [].
Proof.
  induction busy as [|b busy IH]; intros tries; [reflexivity|].
  destruct b; [|reflexivity].
  cbn [add_attendance_from]. cbv zeta.
  destruct (limit <? S tries)%nat; [reflexivity|].
  specialize (IH (S tries)).
  destruct (add_attendance_from limit utcnow busy (S tries) db roll source
              note) as [[r0 db0] tr0].
  exact IH.
Qed.

End StoreFacts.

(* --------------------------------------------------------------------- *)
(** ** The engine: one handling of a symbol                               *)
(* --------------------------------------------------------------------- *)

Module EngineFacts.

Import Store Engine StoreFacts.

Lemma Qlt_bool_iff (x y : Q) : Qlt_bool x y = true <-> (x < y)%Q.
Proof.
  unfold Qlt_bool. rewrite negb_true_iff.
  destruct (Qle_bool y x) eqn:E.
  - apply Qle_bool_iff in E. split; [discriminate|].
    intros H. exfalso. apply (Qlt_not_le _ _ H E).
  - split; [intros _|reflexivity].
    apply Qnot_le_lt. intros H. apply Qle_bool_iff in H. congruence.
Qed.

Lemma suppressed_iff (last_seen : gmap string Q) (qr_data : string)
    (now : Q) :
  suppressed last_seen qr_data now = true <->
  exists t, last_seen !! qr_data = Some t /\ (now - t < window)%Q.
Proof.
  unfold suppressed. destruct (last_seen !! qr_data) as [t|].
  - rewrite Qlt_bool_iff. split.
    + intros H. now exists t.
    + intros (t' & [= <-] & H). exact H.
  - split; [discriminate|]. intros (t & [=] & _).
Qed.

Section Handle.

Context {F : Fernet}.
Variables (limit : nat) (env : Env) (last_seen : gmap string Q) (db : Db)
  (qr_data : string).

Lemma handle_suppressed :
  suppressed last_seen qr_data (now env) = true ->
  handle limit env last_seen db qr_data =
  {| result_of := Suppressed; last_seen_of := last_seen; db_of := db;
     trace_of := [] |}.
Proof. intros H. unfold handle. now rewrite H. Qed.

(** What the store part of the loop body does. *)
Lemma check_and_record_spec (student : Student.t) (roll_no : string)
    r db' tr :
  check_and_record limit env db student roll_no = (r, db', tr) ->
  exists tr', tr = SelectAttendance roll_no :: tr' /\
  if attendance_exists db roll_no then
    r = Emitted (Duplicate roll_no) /\ db' = db /\ tr' = []
  else if all_busy (S limit) (busy env) then
    r = Propagated OperationalError /\ db' = db /\
    attempts tr' = S limit /\ sleeps tr' = limit
  else
    exists k, (k <= limit)%nat /\
      r = Emitted (Verified student roll_no (utcnow env k)) /\
      db' = insert_attendance db roll_no (utcnow env k) "webrtc_live" "" /\
      attempts tr' = S k /\ sleeps tr' = k.
Proof.
  unfold check_and_record. destruct (attendance_exists db roll_no).
  - intros [= <- <- <-]. now eexists.
  - destruct (add_attendance limit (utcnow env) (busy env) db roll_no
                "webrtc_live" "") as [[r0 db0] tr0] eqn:Hadd.
    pose proof (add_attendance_spec _ _ _ _ _ _ _ _ _ _ Hadd) as H.
    destruct (all_busy (S limit) (busy env)).
    + destruct H as (-> & -> & Ha & Hs). intros [= <- <- <-].
      now eexists.
    + destruct H as (k & Hk & -> & -> & Ha & Hs). intros [= <- <- <-].
      eexists. split; [reflexivity|]. now exists k.
Qed.

(** The handling of a symbol the debounce lets through. *)
Lemma handle_passed :
  suppressed last_seen qr_data (now env) = false ->
  let h := handle limit env last_seen db qr_data in
  last_seen_of h = <[qr_data := now env]> last_seen /\
  match Codec.decode qr_data with
  | None =>
      result_of h = Emitted Invalid /\ db_of h = db /\
      trace_of h = [Decode qr_data]
  | Some (roll_no, _) =>
      match find_student db roll_no qr_data with
      | (None, tr) =>
          result_of h = Emitted Unknown /\ db_of h = db /\
          trace_of h = Decode qr_data :: tr
      | (Some student, tr) =>
          exists tr',
            check_and_record limit env db student roll_no
            = (result_of h, db_of h, tr') /\
            trace_of h = Decode qr_data :: tr ++ tr'
      end
  end.
Proof.
  intros H h. unfold h, handle. rewrite H.
  destruct (Codec.decode qr_data) as [[roll_no nonce]|]; [|now cbn].
  destruct (find_student db roll_no qr_data) as [[student|] tr];
    [|now cbn].
  destruct (check_and_record limit env db student roll_no)
    as [[r db'] tr'] eqn:Hcr.
  cbn. split; [reflexivity|]. now exists tr'.
Qed.

(** The effect of one handling on the database. *)
Lemma handle_db :
  let h := handle limit env last_seen db qr_data in
  students (db_of h) = students db /\
  match result_of h with
  | Emitted (Verified _ roll_no ts) =>
      attendance (db_of h)
      = attendance db ++ [record_of db roll_no ts "webrtc_live" ""]
  | _ => db_of h = db
  end.
Proof.
  intros h. destruct (suppressed last_seen qr_data (now env)) eqn:Hs.
  - unfold h. rewrite (handle_suppressed Hs). now cbn.
  - destruct (handle_passed Hs) as [_ H]. fold h in H.
    destruct (Codec.decode qr_data) as [[roll_no nonce]|].
    + destruct (find_student db roll_no qr_data) as [[student|] tr].
      * destruct H as (tr' & Hcr & _).
        destruct (check_and_record_spec _ _ _ _ _ Hcr) as (tr'' & _ & Hc).
        destruct (attendance_exists db roll_no).
        { destruct Hc as (-> & -> & _). now split. }
        destruct (all_busy (S limit) (busy env)).
        { destruct Hc as (-> & -> & _). now split. }
        destruct Hc as (k & _ & -> & -> & _). now split.
      * destruct H as (-> & -> & _). now split.
    + destruct H as (-> & -> & _). now split.
Qed.

(** The cache after one handling: the entries it had, and one for the
    text handled. *)
Lemma handle_dom :
  dom (last_seen_of (handle limit env last_seen db qr_data))
  = {[qr_data]} ∪ dom last_seen.
Proof.
  destruct (suppressed last_seen qr_data (now env)) eqn:Hs.
  - rewrite (handle_suppressed Hs). cbn.
    apply suppressed_iff in Hs. destruct Hs as (t & Ht & _).
    symmetry. apply subseteq_union_1_L, singleton_subseteq_l.
    apply elem_of_dom. eauto.
  - destruct (handle_passed Hs) as [-> _]. apply dom_insert_L.
Qed.

End Handle.

End EngineFacts.

Module EngineClaims.

Import Store Engine StoreFacts EngineFacts.

(** C4: a text seen again less than 3 seconds after the time recorded for
    it is dropped at the debounce step (no outcome, no call to the codec,
    no access to the store, cache and database as they were); otherwise
    its time is recorded and the handling goes on to the decoding; hence
    a second observation within 3 seconds of a first one that was handled
    is dropped. *)
Theorem debounce {F : Fernet} (limit : nat) (env : Env)
    (last_seen : gmap string Q) (db : Db) (qr_data : string) :
  let h := handle limit env last_seen db qr_data in
  (forall t, last_seen !! qr_data = Some t -> (now env - t < 3)%Q ->
     h = {| result_of := Suppressed; last_seen_of := last_seen;
            db_of := db; trace_of := [] |}) /\
  ((last_seen !! qr_data = None \/
    exists t, last_seen !! qr_data = Some t /\ ~ (now env - t < 3)%Q) ->
     result_of h <> Suppressed /\
     last_seen_of h = <[qr_data := now env]> last_seen /\
     exists tr, trace_of h = Decode qr_data :: tr) /\
  (forall env2, result_of h <> Suppressed ->
     (now env2 - now env < 3)%Q ->
     handle limit env2 (last_seen_of h) (db_of h) qr_data =
     {| result_of := Suppressed; last_seen_of := last_seen_of h;
        db_of := db_of h; trace_of := [] |}).
Proof.
  intros h.
  assert (Hpass : suppressed last_seen qr_data (now env) = false ->
            result_of h <> Suppressed /\
            last_seen_of h = <[qr_data := now env]> last_seen /\
            exists tr, trace_of h = Decode qr_data :: tr).
  { intros Hs. destruct (handle_passed limit env last_seen db qr_data Hs)
      as [Hls H]. fold h in Hls, H.
    split; [|split; [exact Hls|]].
    - destruct (Codec.decode qr_data) as [[roll_no nonce]|].
      + destruct (find_student db roll_no qr_data) as [[student|] tr].
        * destruct H as (tr' & Hcr & _).
          destruct (check_and_record_spec limit env db _ _ _ _ _ Hcr)
            as (tr'' & _ & Hc).
          destruct (attendance_exists db roll_no);
            [destruct Hc as (-> & _); discriminate|].
          destruct (all_busy (S limit) (busy env));
            [destruct Hc as (-> & _); discriminate|].
          destruct Hc as (k & _ & -> & _). discriminate.
        * destruct H as (-> & _). discriminate.
      + destruct H as (-> & _). discriminate.
    - destruct (Codec.decode qr_data) as [[roll_no nonce]|].
      + destruct (find_student db roll_no qr_data) as [[student|] tr].
        * destruct H as (tr' & _ & ->). eauto.
        * destruct H as (_ & _ & ->). eauto.
      + destruct H as (_ & _ & ->). eauto. }
  split; [|split].
  - intros t Ht Hlt. apply handle_suppressed.
    apply suppressed_iff. now exists t.
  - intros Hout. apply Hpass.
    destruct (suppressed last_seen qr_data (now env)) eqn:Hs;
      [|reflexivity].
    apply suppressed_iff in Hs. destruct Hs as (t & Ht & Hlt).
    destruct Hout as [Hnone | (t' & Ht' & Hge)]; [congruence|].
    assert (t' = t) by congruence. subst. contradiction.
  - intros env2 Hres Hlt.
    destruct (suppressed last_seen qr_data (now env)) eqn:Hs.
    + exfalso. apply Hres. unfold h.
      now rewrite (handle_suppressed limit env last_seen db qr_data Hs).
    + destruct (Hpass eq_refl) as (_ & Hls & _).
      apply handle_suppressed. apply suppressed_iff.
      exists (now env). split; [|exact Hlt].
      rewrite Hls. apply lookup_insert_eq.
Qed.

Lemma debounce_witness :
  @handle Demo.fernet limit_qr2 (Demo.env_at 12 [])
    {[ Demo.qr_R001 := 10%Q ]} Demo.db0 Demo.qr_R001
  = {| result_of := Suppressed;
       last_seen_of := {[ Demo.qr_R001 := 10%Q ]};
       db_of := Demo.db0; trace_of := [] |}.
Proof.
  apply (proj1 (@debounce Demo.fernet limit_qr2 (Demo.env_at 12 [])
                  {[ Demo.qr_R001 := 10%Q ]} Demo.db0 Demo.qr_R001))
    with (t := 10%Q).
  - apply lookup_singleton_eq.
  - reflexivity.
Defined.

(** The look-ups of the store part of the loop body: none. *)
Lemma lookups_check_and_record (limit : nat) (env : Env) (db : Db)
    (student : Student.t) (roll_no : string) :
  lookups (check_and_record limit env db student roll_no).2 = [].
Proof.
  unfold check_and_record.
  destruct (attendance_exists db roll_no); [reflexivity|].
  pose proof (lookups_add_attendance_from limit (utcnow env) roll_no
                "webrtc_live" "" db (busy env) 0) as H.
  unfold add_attendance.
  destruct (add_attendance_from limit (utcnow env) (busy env) 0 db roll_no
              "webrtc_live" "") as [[r db'] tr].
  destruct r; exact H.
Qed.

(** C8: for a symbol that passes the debounce and decodes to [roll_no],
    the student is first looked up by [roll_no]; the look-up by the
    scanned text is made only if that one finds nothing; [Unknown] is the
    outcome exactly when both find nothing, and then nothing more is done
    (the database is as it was and the trace ends with the two
    look-ups). *)
Theorem lookup_order {F : Fernet} (limit : nat) (env : Env)
    (last_seen : gmap string Q) (db : Db) (qr_data roll_no nonce : string) :
  suppressed last_seen qr_data (now env) = false ->
  Codec.decode qr_data = Some (roll_no, nonce) ->
  let h := handle limit env last_seen db qr_data in
  lookups (trace_of h) =
    match get_student_by_roll db roll_no with
    | Some _ => [SelectStudentByRoll roll_no]
    | None => [SelectStudentByRoll roll_no; SelectStudentByToken qr_data]
    end /\
  (result_of h = Emitted Unknown <->
   get_student_by_roll db roll_no = None /\
   get_student_by_token_b64 db qr_data = None) /\
  (result_of h = Emitted Unknown ->
   db_of h = db /\
   trace_of h = [Decode qr_data; SelectStudentByRoll roll_no;
                 SelectStudentByToken qr_data]).
Proof.
  intros Hs Hdec h.
  destruct (handle_passed limit env last_seen db qr_data Hs) as [_ H].
  fold h in H. rewrite Hdec in H. unfold find_student in H.
  destruct (get_student_by_roll db roll_no) as [student|] eqn:Hroll.
  - destruct H as (tr' & Hcr & Htr).
    pose proof (lookups_check_and_record limit env db student roll_no)
      as Hl. rewrite Hcr in Hl. cbn in Hl.
    assert (Hne : result_of h <> Emitted Unknown).
    { destruct (check_and_record_spec limit env db _ _ _ _ _ Hcr)
        as (tr'' & _ & Hc).
      destruct (attendance_exists db roll_no);
        [destruct Hc as (-> & _); discriminate|].
      destruct (all_busy (S limit) (busy env));
        [destruct Hc as (-> & _); discriminate|].
      destruct Hc as (k & _ & -> & _). discriminate. }
    split; [|split].
    + rewrite Htr. unfold lookups in *. cbn. now rewrite Hl.
    + split; [contradiction | intros [[=] _]].
    + contradiction.
  - destruct (get_student_by_token_b64 db qr_data) as [student|] eqn:Htok.
    + destruct H as (tr' & Hcr & Htr).
      pose proof (lookups_check_and_record limit env db student roll_no)
        as Hl. rewrite Hcr in Hl. cbn in Hl.
      assert (Hne : result_of h <> Emitted Unknown).
      { destruct (check_and_record_spec limit env db _ _ _ _ _ Hcr)
          as (tr'' & _ & Hc).
        destruct (attendance_exists db roll_no);
          [destruct Hc as (-> & _); discriminate|].
        destruct (all_busy (S limit) (busy env));
          [destruct Hc as (-> & _); discriminate|].
        destruct Hc as (k & _ & -> & _). discriminate. }
      split; [|split].
      * rewrite Htr. unfold lookups in *. cbn. now rewrite Hl.
      * split; [contradiction | intros [_ [=]]].
      * contradiction.
    + destruct H as (Hres & Hdb & Htr). split; [|split].
      * now rewrite Htr.
      * now split.
      * now split.
Qed.

Lemma lookup_order_witness :
  lookups (trace_of (@handle Demo.fernet limit_qr2 (Demo.env_at 10 [])
                       ∅ Demo.db0 Demo.qr_R001))
  = [SelectStudentByRoll "R001"].
Proof.
  assert (Hs : suppressed ∅ Demo.qr_R001 (now (Demo.env_at 10 [])) = false)
    by (unfold suppressed; now rewrite lookup_empty).
  assert (Hd : @Codec.decode Demo.fernet Demo.qr_R001
               = Some ("R001"%string, Codec.make_nonce Demo.rnd))
    by (vm_compute; reflexivity).
  apply (proj1 (@lookup_order Demo.fernet limit_qr2 (Demo.env_at 10 [])
                  ∅ Demo.db0 Demo.qr_R001 "R001"
                  (Codec.make_nonce Demo.rnd) Hs Hd)).
Defined.

(** C9: one handling leaves [students] as it is and adds at most one row
    to [attendance]; it adds one exactly when its outcome is [Verified],
    and then the row is the one for the decoded roll number; with every
    other ending (suppressed, [Invalid], [Unknown], [Duplicate], or an
    exception) the database is as it was. *)
Theorem handle_effect {F : Fernet} (limit : nat) (env : Env)
    (last_seen : gmap string Q) (db : Db) (qr_data : string) :
  let h := handle limit env last_seen db qr_data in
  students (db_of h) = students db /\
  (length (attendance (db_of h)) <= length (attendance db) + 1)%nat /\
  ((exists student roll_no ts,
      result_of h = Emitted (Verified student roll_no ts)) <->
   length (attendance (db_of h)) = (length (attendance db) + 1)%nat) /\
  match result_of h with
  | Emitted (Verified _ roll_no ts) =>
      attendance (db_of h)
      = attendance db ++ [record_of db roll_no ts "webrtc_live" ""]
  | _ => db_of h = db
  end.
Proof.
  intros h.
  destruct (handle_db limit env last_seen db qr_data) as [Hst Hatt].
  fold h in Hst, Hatt. split; [exact Hst|].
  assert (Hcases :
    (exists student roll_no ts,
       result_of h = Emitted (Verified student roll_no ts) /\
       attendance (db_of h)
       = attendance db ++ [record_of db roll_no ts "webrtc_live" ""]) \/
    ((forall student roll_no ts,
        result_of h <> Emitted (Verified student roll_no ts)) /\
     db_of h = db)).
  { destruct (result_of h) as [|[| |r|st r ts]|e];
      try (right; split; [intros; discriminate | exact Hatt]).
    left. now exists st, r, ts. }
  split; [|split; [|exact Hatt]].
  - destruct Hcases as [(st & r & ts & _ & ->)|[_ ->]].
    + rewrite length_app. cbn. lia.
    + lia.
  - destruct Hcases as [(st & r & ts & Hres & Hdb)|[Hne Hdb]].
    + split; [intros _|intros _; now exists st, r, ts].
      rewrite Hdb, length_app. cbn. lia.
    + split; [intros (st & r & ts & Hres); now destruct (Hne st r ts)|].
      rewrite Hdb. lia.
Qed.

Lemma handle_effect_witness :
  exists student roll_no ts,
    result_of (@handle Demo.fernet limit_qr2 (Demo.env_at 10 []) ∅
                 Demo.db0 Demo.qr_R001)
    = Emitted (Verified student roll_no ts).
Proof.
  apply (proj2 (proj1 (proj2 (proj2
           (@handle_effect Demo.fernet limit_qr2 (Demo.env_at 10 []) ∅
              Demo.db0 Demo.qr_R001))))).
  vm_compute. reflexivity.
Defined.

(** C3, as stated, fails: when the database stays locked over all the
    attempts, the handling ends with [sqlite3.OperationalError] leaving
    [recv]; no outcome is announced, and the symbols still to be handled
    in the frame are not. *)
Lemma store_error_leaves_recv :
  result_of (@handle Demo.fernet limit_qr2
               (Demo.env_at 10 (repeat true 9)) ∅ Demo.db0 Demo.qr_R001)
  = Propagated OperationalError /\
  (forall o,
     result_of (@handle Demo.fernet limit_qr2
                  (Demo.env_at 10 (repeat true 9)) ∅ Demo.db0 Demo.qr_R001)
     <> Emitted o) /\
  (@recv Demo.fernet limit_qr2
     [ (Demo.env_at 10 (repeat true 9), list_byte_of_string Demo.qr_R001);
       (Demo.env_at 20 [], list_byte_of_string Demo.qr_R001) ]
     ∅ Demo.db0).1.1
  = [Propagated OperationalError].
Proof.
  assert (H : result_of (@handle Demo.fernet limit_qr2
               (Demo.env_at 10 (repeat true 9)) ∅ Demo.db0 Demo.qr_R001)
              = Propagated OperationalError) by (vm_compute; reflexivity).
  split; [exact H|split].
  - intros o. rewrite H. discriminate.
  - vm_compute. reflexivity.
Qed.

(** C3 (amended): [add_attendance] makes at most [limit + 1] insert
    attempts (9 in [verify_qr2.py], 6 in [verify_qr_app.py]) and sleeps
    0.1 s between two attempts; it returns the time stamp of the first
    attempt that does not meet a locked database; when all [limit + 1]
    attempts meet one it raises the [sqlite3.OperationalError] again,
    with the database as it was, and [recv] lets the exception leave: an
    exception is the only way a handling ends without having reached its
    end, and no outcome is announced then. *)
Theorem bounded_retry {F : Fernet} (limit : nat) (env : Env) (db : Db)
    (roll source note : string) (last_seen : gmap string Q)
    (qr_data : string) :
  (forall r db' tr,
     add_attendance limit (utcnow env) (busy env) db roll source note
     = (r, db', tr) ->
     (attempts tr <= S limit)%nat /\ sleeps tr = (attempts tr - 1)%nat /\
     if all_busy (S limit) (busy env) then
       r = Raised OperationalError /\ db' = db /\ attempts tr = S limit
     else
       exists k, (k <= limit)%nat /\ r = Returned (utcnow env k) /\
         db' = insert_attendance db roll (utcnow env k) source note /\
         attempts tr = S k) /\
  (let h := handle limit env last_seen db qr_data in
   forall e, result_of h = Propagated e ->
     e = OperationalError /\ all_busy (S limit) (busy env) = true /\
     db_of h = db) /\
  (let h := handle limit env last_seen db qr_data in
   forall roll_no nonce student,
     suppressed last_seen qr_data (now env) = false ->
     Codec.decode qr_data = Some (roll_no, nonce) ->
     (find_student db roll_no qr_data).1 = Some student ->
     attendance_exists db roll_no = false ->
     all_busy (S limit) (busy env) = true ->
     result_of h = Propagated OperationalError /\ db_of h = db).
Proof.
  split; [|split].
  - intros r db' tr Heq.
    pose proof (add_attendance_spec _ _ _ _ _ _ _ _ _ _ Heq) as H.
    destruct (all_busy (S limit) (busy env)).
    + destruct H as (-> & -> & Ha & Hs). rewrite Ha, Hs.
      repeat split; lia.
    + destruct H as (k & Hk & -> & -> & Ha & Hs). rewrite Ha, Hs.
      split; [lia|split; [lia|]]. now exists k.
  - intros h e He.
    destruct (suppressed last_seen qr_data (now env)) eqn:Hs.
    { unfold h in He.
      rewrite (handle_suppressed limit env last_seen db qr_data Hs) in He.
      discriminate. }
    destruct (handle_passed limit env last_seen db qr_data Hs) as [_ H].
    fold h in H.
    destruct (Codec.decode qr_data) as [[roll_no nonce]|];
      [|destruct H as (Hr & _); congruence].
    destruct (find_student db roll_no qr_data) as [[student|] tr];
      [|destruct H as (Hr & _); congruence].
    destruct H as (tr' & Hcr & _).
    destruct (check_and_record_spec limit env db _ _ _ _ _ Hcr)
      as (tr'' & _ & Hc).
    destruct (attendance_exists db roll_no);
      [destruct Hc as (Hr & _); congruence|].
    destruct (all_busy (S limit) (busy env)).
    + destruct Hc as (Hr & Hdb & _). split; [congruence|now split].
    + destruct Hc as (k & _ & Hr & _). congruence.
  - intros h roll_no nonce student Hs Hdec Hfind Hex Hbusy.
    destruct (handle_passed limit env last_seen db qr_data Hs) as [_ H].
    fold h in H. rewrite Hdec in H.
    destruct (find_student db roll_no qr_data) as [[student'|] tr];
      [|discriminate].
    destruct H as (tr' & Hcr & _).
    destruct (check_and_record_spec limit env db _ _ _ _ _ Hcr)
      as (tr'' & _ & Hc).
    rewrite Hex, Hbusy in Hc. destruct Hc as (Hr & Hdb & _). now split.
Qed.

Lemma bounded_retry_witness :
  result_of (@handle Demo.fernet limit_qr2
               (Demo.env_at 10 (repeat true 9)) ∅ Demo.db0 Demo.qr_R001)
  = Propagated OperationalError /\
  db_of (@handle Demo.fernet limit_qr2
           (Demo.env_at 10 (repeat true 9)) ∅ Demo.db0 Demo.qr_R001)
  = Demo.db0.
Proof.
  apply (proj2 (proj2
           (@bounded_retry Demo.fernet limit_qr2
              (Demo.env_at 10 (repeat true 9)) Demo.db0 "R001" "" ""
              ∅ Demo.qr_R001))
           "R001"%string (Codec.make_nonce Demo.rnd)
           {| Student.roll_no := "R001"; Student.name := "Asha";
              Student.email := "asha@example.org" |});
    vm_compute; reflexivity.
Defined.

End EngineClaims.

(* --------------------------------------------------------------------- *)
(** ** The cache of the engine                                            *)
(* --------------------------------------------------------------------- *)

Module CacheClaims.

Import Store Engine EngineFacts.

Lemma handle_all_dom {F : Fernet} (limit : nat)
    (scans : list (Env * string)) :
  forall (last_seen : gmap string Q) (db : Db),
    dom (handle_all limit scans last_seen db).1
    = list_to_set (map snd scans) ∪ dom last_seen.
Proof.
  induction scans as [|[env qr] scans IH]; intros last_seen db.
  - cbn. set_solver.
  - cbn [handle_all map snd list_to_set]. rewrite IH, handle_dom.
    set_solver.
Qed.

Lemma text_of_inj : Inj (=) (=) Demo.text_of.
Proof.
  intros n. induction n as [|n IH]; intros [|m] H; try discriminate.
  - reflexivity.
  - injection H as H. f_equal. now apply IH.
Qed.

Lemma texts_of_scans (n : nat) :
  map snd (Demo.scans n) = Demo.text_of <$> seq 0 n.
Proof.
  unfold Demo.scans. rewrite map_map. reflexivity.
Qed.

Lemma size_after_scans (n : nat) (db : Db) :
  size (@handle_all Demo.fernet limit_qr2 (Demo.scans n) ∅ db).1 = n.
Proof.
  rewrite <- size_dom, handle_all_dom, dom_empty_L, union_empty_r_L.
  rewrite texts_of_scans, size_list_to_set.
  - now rewrite length_fmap, length_seq.
  - apply NoDup_fmap_2; [apply text_of_inj | apply NoDup_seq].
Qed.

(** C5, as stated, fails: no number bounds the size of [last_seen]; after
    [n] different texts it holds [n] entries. *)
Lemma cache_not_bounded :
  ~ exists bound : nat,
      forall (F : Fernet) (limit : nat) (scans : list (Env * string))
             (db : Db),
        (size (handle_all limit scans ∅ db).1 <= bound)%nat.
Proof.
  intros [bound H].
  specialize (H Demo.fernet limit_qr2 (Demo.scans (S bound)) empty_db).
  rewrite size_after_scans in H. lia.
Qed.

(** C5 (amended): [last_seen] is never pruned: after any sequence of
    handled texts it holds the entries it had and one entry for each
    different text handled, so its size is at most its initial size plus
    the number of texts handled, and no fixed number bounds it. *)
Theorem cache_grows {F : Fernet} (limit : nat)
    (scans : list (Env * string)) (last_seen : gmap string Q) (db : Db) :
  let last_seen' := (handle_all limit scans last_seen db).1 in
  dom last_seen' = list_to_set (map snd scans) ∪ dom last_seen /\
  (size last_seen' <= size last_seen + length scans)%nat.
Proof.
  intros last_seen'. pose proof (handle_all_dom limit scans last_seen db)
    as Hdom. fold last_seen' in Hdom. split; [exact Hdom|].
  rewrite <- !size_dom, Hdom, size_union_alt.
  assert (Hle : (size (list_to_set (map snd scans) : gset string)
                 <= length scans)%nat).
  { clear. induction scans as [|[env qr] scans IH]; cbn.
    - now rewrite size_empty.
    - rewrite size_union_alt, size_singleton.
      assert (size (list_to_set (map snd scans) ∖ {[qr]} : gset string)
              <= size (list_to_set (map snd scans) : gset string))%nat
        by (apply subseteq_size; set_solver).
      lia. }
  assert (size (dom last_seen ∖ list_to_set (map snd scans))
          <= size (dom last_seen))%nat
    by (apply subseteq_size; set_solver).
  lia.
Qed.

End CacheClaims.

(* --------------------------------------------------------------------- *)
(** ** The tables over the life of the system                             *)
(* --------------------------------------------------------------------- *)

Module StoreClaims.

Import Store Engine StoreFacts EngineFacts.

(** C6: after any sequence of issuances on a table that keeps its key
    constraint, every participant has at most one row in [students],
    every participant issued to has exactly one, and one more issuance
    for a participant leaves the row it writes as the only one of that
    participant. *)
Theorem one_credential_per_participant (calls : list issuance) (db : Db) :
  (forall roll, (length (rows_of db roll) <= 1)%nat) ->
  (forall roll, (length (rows_of (save_all calls db) roll) <= 1)%nat) /\
  (forall i, In i calls ->
     length (rows_of (save_all calls db) (iss_roll i)) = 1%nat) /\
  (forall i,
     rows_of (save_issuance (save_all calls db) i) (iss_roll i)
     = [row_of i]).
Proof.
  intros Hdb. split; [|split].
  - now apply rows_of_save_all_le.
  - intros i Hin. apply in_split in Hin. destruct Hin as (a & b & ->).
    rewrite save_all_app. cbn [save_all fold_left].
    fold (save_all b (save_issuance (save_all a db) i)).
    assert (H1 : length (rows_of (save_issuance (save_all a db) i)
                           (iss_roll i)) = 1%nat)
      by now rewrite rows_of_save_same.
    revert H1. generalize (save_issuance (save_all a db) i).
    induction b as [|j b IH]; intros d H1; [exact H1|].
    cbn. apply IH.
    destruct (String.eqb_spec (iss_roll i) (iss_roll j)) as [->|Hne].
    + now rewrite rows_of_save_same.
    + now rewrite rows_of_save_other.
  - intros i. apply rows_of_save_same.
Qed.

Lemma one_credential_per_participant_witness :
  rows_of
    (save_issuance
       (save_all
          [ {| iss_roll := "R001"; iss_name := "Asha";
               iss_email := "asha@example.org"; iss_token_b64 := "old";
               iss_created_at := "2025-01-01 00:00:00" |} ] empty_db)
       {| iss_roll := "R001"; iss_name := "Asha";
          iss_email := "asha@example.org"; iss_token_b64 := "new";
          iss_created_at := "2025-01-02 00:00:00" |})
    "R001"
  = [ {| Students.roll_no := "R001"; Students.name := "Asha";
         Students.email := "asha@example.org";
         Students.token_b64 := "new";
         Students.created_at := "2025-01-02 00:00:00" |} ].
Proof.
  apply (proj2 (proj2
    (one_credential_per_participant
       [ {| iss_roll := "R001"; iss_name := "Asha";
            iss_email := "asha@example.org"; iss_token_b64 := "old";
            iss_created_at := "2025-01-01 00:00:00" |} ] empty_db
       (fun roll => Nat.le_0_l 1)))).
Defined.

(** Each call of [recv] only adds to [attendance]. *)
Lemma recv_attendance {F : Fernet} (limit : nat)
    (symbols : list (Env * list byte)) :
  forall (last_seen : gmap string Q) (db : Db),
  exists l,
    attendance (recv limit symbols last_seen db).2 = attendance db ++ l.
Proof.
  induction symbols as [|[env data] symbols IH]; intros last_seen db.
  - exists []. cbn. now rewrite app_nil_r.
  - cbn [recv]. destruct (Text.decode_utf8 data) as [qr_data|];
      [|apply IH].
    pose proof (handle_db limit env last_seen db qr_data) as [_ Hh].
    cbv zeta in Hh.
    set (h := handle limit env last_seen db qr_data) in *.
    assert (Hext : exists l, attendance (db_of h) = attendance db ++ l).
    { destruct (result_of h) as [|[| |r|st r ts]|e];
        try (exists []; rewrite Hh; now rewrite app_nil_r).
      eexists. exact Hh. }
    destruct Hext as [l1 Hl1].
    destruct (result_of h) as [|o|e].
    + destruct (IH (last_seen_of h) (db_of h)) as [l2 Hl2].
      destruct (recv limit symbols (last_seen_of h) (db_of h))
        as [[rs ls] db'].
      cbn in *. exists (l1 ++ l2). now rewrite Hl2, Hl1, app_assoc.
    + destruct (IH (last_seen_of h) (db_of h)) as [l2 Hl2].
      destruct (recv limit symbols (last_seen_of h) (db_of h))
        as [[rs ls] db'].
      cbn in *. exists (l1 ++ l2). now rewrite Hl2, Hl1, app_assoc.
    + cbn. now exists l1.
Qed.

(** Each operation only adds to [attendance]. *)
Lemma apply_attendance {F : Fernet} (db : Db) (o : operation) :
  exists l, attendance (apply db o) = attendance db ++ l.
Proof.
  destruct o as [|i|limit utcnow busy roll source note
                 |limit symbols last_seen]; cbn [apply].
  - exists []. unfold init_db. now rewrite app_nil_r.
  - exists []. rewrite attendance_save. now rewrite app_nil_r.
  - destruct (add_attendance limit utcnow busy db roll source note)
      as [[r db'] tr] eqn:Hadd.
    destruct (add_attendance_db _ _ _ _ _ _ _ _ _ _ Hadd) as [_ H].
    cbn. destruct r as [ts|e].
    + eexists. exact H.
    + exists []. rewrite H. now rewrite app_nil_r.
  - apply recv_attendance.
Qed.

Lemma apply_all_attendance {F : Fernet} (ops : list operation) :
  forall db, exists l, attendance (apply_all ops db) = attendance db ++ l.
Proof.
  induction ops as [|o ops IH]; intros db.
  - exists []. cbn. now rewrite app_nil_r.
  - cbn. destruct (apply_attendance db o) as [l1 Hl1].
    destruct (IH (apply db o)) as [l2 Hl2]. exists (l1 ++ l2).
    unfold apply_all in Hl2. now rewrite Hl2, Hl1, app_assoc.
Qed.

(** C7: no operation removes a row of [attendance]: after any sequence of
    operations the log is the former log with rows added at its end, so a
    participant for whom [attendance_exists] held still has it hold. *)
Theorem attendance_monotone {F : Fernet} (ops : list operation) (db : Db)
    (roll : string) :
  attendance_exists db roll = true ->
  attendance_exists (apply_all ops db) roll = true /\
  exists added, attendance (apply_all ops db) = attendance db ++ added.
Proof.
  intros H. destruct (apply_all_attendance ops db) as [l Hl].
  split; [|now exists l].
  unfold attendance_exists in *. rewrite Hl. now apply existsb_app_l.
Qed.

Lemma attendance_monotone_witness :
  attendance_exists
    (@apply_all Demo.fernet
       [ InitDb;
         SaveStudent
           {| iss_roll := "R001"; iss_name := "Asha";
              iss_email := "asha@example.org"; iss_token_b64 := "new";
              iss_created_at := "2025-01-02 00:00:00" |};
         Recv limit_qr2
           [(Demo.env_at 10 [], list_byte_of_string Demo.qr_R001)] ∅ ]
       (insert_attendance Demo.db0 "R001" "2025-01-02T18:00:00Z"
          "webrtc_live" ""))
    "R001"
  = true.
Proof.
  apply (fun H => proj1 (@attendance_monotone Demo.fernet _ _ _ H)).
  vm_compute. reflexivity.
Defined.

End StoreClaims.

(* --------------------------------------------------------------------- *)
(** ** Several calls for one participant                                  *)
(* --------------------------------------------------------------------- *)

Module CallsClaims.

Import Store Engine Calls StoreFacts EngineFacts.

(** The two accesses of a call, made without any other access between
    them, are the store part of the loop body. *)
Lemma step_step (limit : nat) (db : Db) (t : thread) :
  th_pc t = AtCheck ->
  let '(db1, t1) := step limit db t in
  let '(db2, t2) := step limit db1 t1 in
  let '(r, db', _) :=
    check_and_record limit (th_env t) db (th_student t) (th_roll t) in
  th_pc t2 = Done r /\ db2 = db'.
Proof.
  intros Hpc. unfold step at 1, check_and_record. rewrite Hpc.
  destruct (attendance_exists db (th_roll t)); [now cbn|].
  unfold step. cbn [th_pc at_pc th_env th_roll th_student].
  destruct (add_attendance limit (utcnow (th_env t)) (busy (th_env t)) db
              (th_roll t) "webrtc_live" "") as [[r db'] tr].
  destruct r; now cbn.
Qed.

(** C1: the duplicate check of [recv] does not hold against a second
    call.  [attendance_exists] and [add_attendance] are two separate
    accesses, each on a connection of its own, [attendance] has no
    uniqueness constraint on [roll_no], and nothing keeps a second call
    from making its check between them.  Two calls for the same
    participant, not yet in [attendance], whose accesses alternate
    (check, check, insert, insert), both record and both announce
    [Verified]: the log ends with two rows for the participant, where
    one call should have recorded and the other announced
    [Duplicate]. *)
Lemma two_calls_both_verified :
  attendance_exists Demo.db0 "R001" = false /\
  @Codec.decode Demo.fernet Demo.qr_R001
  = Some ("R001"%string, Codec.make_nonce Demo.rnd) /\
  (find_student Demo.db0 "R001" Demo.qr_R001).1 = Some Demo.student_R001 /\
  let '(db', ts) :=
    run_schedule limit_qr2 [0; 1; 0; 1]%nat Demo.db0
      [Demo.thread_R001; Demo.thread_R001] in
  map th_pc ts =
    [ Done (Emitted (Verified Demo.student_R001 "R001"
                       "2025-01-02T18:00:00Z"));
      Done (Emitted (Verified Demo.student_R001 "R001"
                       "2025-01-02T18:00:00Z")) ] /\
  length (records_of db' "R001") = 2%nat.
Proof. vm_compute. repeat split. Qed.

Lemma find_student_students (db db' : Db) (roll_no qr_data : string) :
  students db' = students db ->
  find_student db' roll_no qr_data = find_student db roll_no qr_data.
Proof.
  intros H. unfold find_student, get_student_by_roll,
    get_student_by_token_b64. now rewrite H.
Qed.

(** A call for a participant already in [attendance]. *)
Lemma handle_duplicate {F : Fernet} (limit : nat) (c : call) (db0 db : Db)
    (roll : string) :
  ready db0 roll c -> students db = students db0 ->
  attendance_exists db roll = true ->
  let h := handle limit (call_env c) (call_last_seen c) db (call_qr c) in
  result_of h = Emitted (Duplicate roll) /\ db_of h = db.
Proof.
  intros (Hs & Hdec & Hfind) Hst Hex h.
  destruct (handle_passed limit (call_env c) (call_last_seen c) db
              (call_qr c) Hs) as [_ H]. fold h in H.
  destruct (Codec.decode (call_qr c)) as [[roll_no nonce]|];
    [|discriminate].
  cbn in Hdec. injection Hdec as ->.
  rewrite (find_student_students db0 db roll (call_qr c) Hst) in H.
  destruct (find_student db0 roll (call_qr c)) as [[student|] tr];
    [|now cbn in Hfind].
  destruct H as (tr' & Hcr & _).
  destruct (check_and_record_spec _ _ _ _ _ _ _ _ Hcr) as (tr'' & _ & Hc).
  rewrite Hex in Hc. destruct Hc as (-> & -> & _). now split.
Qed.

Lemma run_serial_duplicates {F : Fernet} (limit : nat) (db0 : Db)
    (roll : string) (cs : list call) :
  forall db, Forall (ready db0 roll) cs -> students db = students db0 ->
    attendance_exists db roll = true ->
    run_serial limit cs db
    = (map (fun _ => Emitted (Duplicate roll)) cs, db).
Proof.
  induction cs as [|c cs IH]; intros db Hall Hst Hex; [reflexivity|].
  apply Forall_cons in Hall. destruct Hall as [Hc Hcs].
  destruct (handle_duplicate limit c db0 db roll Hc Hst Hex) as [Hr Hdb].
  cbn [run_serial map]. cbv zeta. rewrite Hdb, Hr.
  now rewrite (IH db Hcs Hst Hex).
Qed.

(** X18: calls made one after the other.  When the calls for one
    participant not yet in [attendance] run one after the other, each
    check and insert made without an access of another call in between,
    the first call records the attendance and announces [Verified], and
    every later call announces [Duplicate]; exactly one row is added. *)
Theorem serial_calls_record_once {F : Fernet} (limit : nat) (c : call)
    (cs : list call) (db : Db) (roll : string) :
  attendance_exists db roll = false ->
  Forall (ready db roll) (c :: cs) ->
  all_busy (S limit) (busy (call_env c)) = false ->
  exists student ts db',
    run_serial limit (c :: cs) db
    = (Emitted (Verified student roll ts)
         :: map (fun _ => Emitted (Duplicate roll)) cs, db') /\
    attendance db'
    = attendance db ++ [record_of db roll ts "webrtc_live" ""] /\
    students db' = students db.
Proof.
  intros Hex Hall Hbusy.
  apply Forall_cons in Hall. destruct Hall as [(Hs & Hdec & Hfind) Hcs].
  destruct (handle_passed limit (call_env c) (call_last_seen c) db
              (call_qr c) Hs) as [_ H].
  cbn [run_serial]. cbv zeta.
  set (h := handle limit (call_env c) (call_last_seen c) db (call_qr c))
    in *.
  destruct (Codec.decode (call_qr c)) as [[roll_no nonce]|];
    [|discriminate].
  cbn in Hdec. injection Hdec as ->.
  destruct (find_student db roll (call_qr c)) as [[student|] tr];
    [|now cbn in Hfind].
  destruct H as (tr' & Hcr & _).
  destruct (check_and_record_spec _ _ _ _ _ _ _ _ Hcr) as (tr'' & _ & Hc).
  rewrite Hex, Hbusy in Hc. destruct Hc as (k & _ & Hr & Hdb & _).
  exists student, (utcnow (call_env c) k), (db_of h).
  rewrite Hr.
  rewrite (run_serial_duplicates limit db roll cs (db_of h) Hcs).
  - rewrite Hdb. now repeat split.
  - now rewrite Hdb.
  - rewrite Hdb. unfold attendance_exists, insert_attendance.
    cbn [attendance]. rewrite existsb_app. cbn.
    now rewrite String.eqb_refl, orb_true_r.
Qed.

Lemma ready_R001 : @ready Demo.fernet Demo.db0 "R001" Demo.call_R001.
Proof.
  split; [|split]; vm_compute; [reflexivity | reflexivity | discriminate].
Qed.

Lemma serial_calls_record_once_witness :
  exists student ts db',
    @run_serial Demo.fernet limit_qr2
      [Demo.call_R001; Demo.call_R001; Demo.call_R001] Demo.db0
    = ([ Emitted (Verified student "R001" ts);
         Emitted (Duplicate "R001"); Emitted (Duplicate "R001") ], db') /\
    attendance db'
    = attendance Demo.db0
      ++ [record_of Demo.db0 "R001" ts "webrtc_live" ""] /\
    students db' = students Demo.db0.
Proof.
  apply (@serial_calls_record_once Demo.fernet limit_qr2 Demo.call_R001
           [Demo.call_R001; Demo.call_R001] Demo.db0 "R001").
  - vm_compute. reflexivity.
  - repeat (apply List.Forall_cons; [apply ready_R001|]).
    apply List.Forall_nil.
  - reflexivity.
Defined.

End CallsClaims.

(* --------------------------------------------------------------------- *)
(** ** More on the codec: what a QR text determines                       *)
(* --------------------------------------------------------------------- *)

Module CodecMore.

Import Text Codec TextFacts CodecFacts.

Lemma urlsafe_b64encode_inj (a b : list byte) :
  Base64.urlsafe_b64encode a = Base64.urlsafe_b64encode b -> a = b.
Proof.
  intros H.
  pose proof (Base64Facts.a2b_encode a 0 0) as Ha.
  pose proof (Base64Facts.a2b_encode b 0 0) as Hb.
  rewrite H in Ha. congruence.
Qed.

Lemma string_of_list_byte_inj (a b : list byte) :
  string_of_list_byte a = string_of_list_byte b -> a = b.
Proof.
  intros H. apply (f_equal list_byte_of_string) in H.
  now rewrite !list_byte_of_string_of_list_byte in H.
Qed.

Lemma list_byte_of_string_inj (a b : string) :
  list_byte_of_string a = list_byte_of_string b -> a = b.
Proof.
  intros H. apply (f_equal string_of_list_byte) in H.
  now rewrite !string_of_list_byte_of_string in H.
Qed.

Lemma token_b64_of_inj (a b : list byte) :
  token_b64_of a = token_b64_of b -> a = b.
Proof.
  intros H. now apply urlsafe_b64encode_inj, string_of_list_byte_inj.
Qed.

Lemma contains_app_sep (sep : ascii) (a b : string) :
  contains sep (a ++ String sep b) = true.
Proof.
  induction a as [|c a IH].
  - rewrite append_Empty. cbn. now rewrite Ascii.eqb_refl.
  - rewrite append_String. cbn. now rewrite IH, orb_true_r.
Qed.

(** A payload whose nonce is free of the separator determines its two
    parts. *)
Lemma payload_of_inj (r1 n1 r2 n2 : string) :
  contains separator n1 = false -> contains separator n2 = false ->
  payload_of r1 n1 = payload_of r2 n2 -> r1 = r2 /\ n1 = n2.
Proof.
  intros H1 H2. unfold payload_of. revert r2.
  induction r1 as [|c r1 IH]; intros [|c2 r2] H.
  - rewrite !append_Empty in H. injection H as ->. now split.
  - rewrite append_Empty, append_String in H. injection H as <- ->.
    now rewrite contains_app_sep in H1.
  - rewrite append_Empty, append_String in H. injection H as -> <-.
    now rewrite contains_app_sep in H2.
  - rewrite !append_String in H. injection H as -> H.
    destruct (IH r2 H) as [-> ->]. now split.
Qed.

(** X1: the text of an issued QR code determines the roll number and the
    random bytes of its nonce: two issued credentials with the same text
    are for the same participant and were made from the same random
    bytes. *)
Theorem qr_text_determines_credential {F : Fernet} {HF : FernetCorrect F}
    (iv1 rnd1 iv2 rnd2 : list byte) (roll1 roll2 : string) :
  token_b64_of (make_token iv1 rnd1 roll1)
  = token_b64_of (make_token iv2 rnd2 roll2) ->
  roll1 = roll2 /\ rnd1 = rnd2.
Proof.
  intros H. apply token_b64_of_inj in H.
  apply (f_equal fernet_decrypt) in H. unfold make_token in H.
  cbv zeta in H. unfold encrypt_payload in H.
  rewrite !fernet_decrypt_encrypt in H. injection H as H.
  apply list_byte_of_string_inj in H.
  destruct (make_nonce_plain rnd1) as [_ Hn1].
  destruct (make_nonce_plain rnd2) as [_ Hn2].
  destruct (payload_of_inj _ _ _ _ Hn1 Hn2 H) as [Hr Hn].
  split; [exact Hr|].
  unfold make_nonce in Hn.
  now apply urlsafe_b64encode_inj, string_of_list_byte_inj.
Qed.

Lemma qr_text_determines_credential_witness :
  "R001"%string = "R001"%string /\ Demo.rnd = Demo.rnd.
Proof.
  apply (@qr_text_determines_credential Demo.fernet demo_fernet_correct
           Demo.iv Demo.rnd Demo.iv Demo.rnd "R001" "R001")%string.
  reflexivity.
Defined.

(** X2: the nonce drawn from the six bytes of [os.urandom(6)] has exactly
    eight characters, all of the URL-safe alphabet: it carries no
    padding. *)
Theorem nonce_shape (rnd : list byte) :
  length rnd = 6%nat ->
  length (list_byte_of_string (make_nonce rnd)) = 8%nat /\
  Forall (fun c => In c Base64.alphabet)
         (list_byte_of_string (make_nonce rnd)).
Proof.
  intros Hlen. unfold make_nonce.
  rewrite list_byte_of_string_of_list_byte.
  destruct rnd as [|a [|b [|c [|d [|e [|f [|g rnd]]]]]]]; try discriminate.
  cbn [Base64.urlsafe_b64encode]. cbv zeta. split; [reflexivity|].
  repeat (apply List.Forall_cons); try apply List.Forall_nil;
    (unfold Base64.char_of; apply nth_In;
     change (length Base64.alphabet) with 64%nat; Base64Facts.euclid).
Qed.

Lemma nonce_shape_witness :
  length (list_byte_of_string (make_nonce Demo.rnd)) = 8%nat.
Proof. apply (nonce_shape Demo.rnd). reflexivity. Defined.

End CodecMore.

(* --------------------------------------------------------------------- *)
(** ** [str.strip]: stripping twice, and stripping a well-formed text     *)
(* --------------------------------------------------------------------- *)

Module StripFacts.

Import Text.

Lemma strip_prefix_Some (p s t : list N) :
  strip_prefix p s = Some t <-> s = (p ++ t)%list.
Proof.
  revert s. induction p as [|x p IH]; intros s; cbn.
  - split; [now intros [= ->] | now intros ->].
  - destruct s as [|y s]; [split; discriminate|].
    destruct (N.eqb_spec x y) as [->|Hne].
    + rewrite IH. split; [now intros -> | now intros [= ->]].
    + split; [discriminate | intros [= -> _]; contradiction].
Qed.

Lemma first_some_Some {A B} (f : A -> option B) (l : list A) (y : B) :
  first_some f l = Some y -> exists x, In x l /\ f x = Some y.
Proof.
  induction l as [|x l IH]; [discriminate|]. cbn.
  destruct (f x) as [z|] eqn:E.
  - intros [= <-]. exists x. auto.
  - intros H. destruct (IH H) as (x' & Hin & Hx'). exists x'. auto.
Qed.

Lemma first_some_None {A B} (f : A -> option B) (l : list A) :
  first_some f l = None <-> forall x, In x l -> f x = None.
Proof.
  induction l as [|x l IH]; cbn; [now split|].
  destruct (f x) as [z|] eqn:E.
  - split; [discriminate|]. intros H. rewrite <- E. apply H. now left.
  - rewrite IH. split.
    + intros H x' [<-|Hin]; [exact E | now apply H].
    + intros H x' Hin. apply H. now right.
Qed.

(** What [lstrip_with] removes is a run of elements of [ws]. *)
Lemma lstrip_with_removed (ws : list (list N)) (fuel : nat) (s : list N) :
  exists removed,
    Forall (fun w => In w ws) removed /\
    s = (concat removed ++ lstrip_with ws fuel s)%list.
Proof.
  revert s. induction fuel as [|fuel IH]; intros s.
  - exists []. split; [constructor | reflexivity].
  - cbn. destruct (first_some _ ws) as [s'|] eqn:E.
    + apply first_some_Some in E. destruct E as (w & Hin & Hw).
      apply strip_prefix_Some in Hw. destruct (IH s') as (rm & Hrm & Hs').
      exists (w :: rm). split; [now constructor|].
      cbn. rewrite <- app_assoc, <- Hs'. exact Hw.
    + exists []. split; [constructor | reflexivity].
Qed.

(** With enough fuel, what [lstrip_with] leaves begins with no element of
    [ws]. *)
Lemma lstrip_with_done (ws : list (list N)) (fuel : nat) (s : list N) :
  (forall w, In w ws -> w <> []) -> (length s <= fuel)%nat ->
  first_some (fun w => strip_prefix w (lstrip_with ws fuel s)) ws = None.
Proof.
  intros Hne. revert s. induction fuel as [|fuel IH]; intros s Hlen.
  - destruct s; [|cbn in Hlen; lia]. cbn.
    apply first_some_None. intros w Hin.
    destruct w as [|x w]; [now destruct (Hne [] Hin)|reflexivity].
  - cbn. destruct (first_some (fun w => strip_prefix w s) ws)
      as [s'|] eqn:E; [|exact E].
    apply IH. apply first_some_Some in E. destruct E as (w & Hin & Hw).
    apply strip_prefix_Some in Hw. subst s.
    destruct w as [|x w]; [now destruct (Hne [] Hin)|].
    rewrite length_app in Hlen. cbn in Hlen. lia.
Qed.

Lemma lstrip_with_fixed (ws : list (list N)) (fuel : nat) (s : list N) :
  first_some (fun w => strip_prefix w s) ws = None ->
  lstrip_with ws fuel s = s.
Proof. intros H. destruct fuel; [reflexivity|]. cbn. now rewrite H. Qed.

(** A text that begins with no element of [ws] has no beginning that
    does. *)
Lemma no_prefix_app (ws : list (list N)) (m x : list N) :
  first_some (fun w => strip_prefix w (m ++ x)%list) ws = None ->
  first_some (fun w => strip_prefix w m) ws = None.
Proof.
  rewrite !first_some_None. intros H w Hin.
  destruct (strip_prefix w m) as [t|] eqn:E; [|reflexivity].
  apply strip_prefix_Some in E. subst m.
  specialize (H w Hin).
  assert (Hs : strip_prefix w ((w ++ t) ++ x)%list = Some (t ++ x)%list)
    by (apply strip_prefix_Some; now rewrite app_assoc).
  congruence.
Qed.

Lemma whitespace_nonempty (w : list N) : In w whitespace -> w <> [].
Proof.
  intros Hin ->. cbn in Hin.
  repeat (destruct Hin as [Hin|Hin]; [discriminate Hin|]). exact Hin.
Qed.

Lemma rev_whitespace_nonempty (w : list N) :
  In w (map (@rev N) whitespace) -> w <> [].
Proof.
  intros Hin. apply in_map_iff in Hin. destruct Hin as (w' & <- & Hin).
  intros H. apply (whitespace_nonempty w' Hin).
  apply (f_equal (@rev N)) in H. now rewrite rev_involutive in H.
Qed.

(** The codes of a text, stripped: the middle part [m] of the codes, with
    runs of white space around it, and nothing more to strip at either
    end. *)
Lemma strip_codes (s : string) :
  exists front back m,
    Forall (fun w => In w whitespace) front /\
    Forall (fun w => In w whitespace) back /\
    codes s = (concat front ++ m ++ concat back)%list /\
    strip s = of_codes m /\
    first_some (fun w => strip_prefix w m) whitespace = None /\
    first_some (fun w => strip_prefix w (rev m)) (map (@rev N) whitespace)
    = None.
Proof.
  unfold strip. cbv zeta.
  set (l := lstrip_with whitespace (length (codes s)) (codes s)).
  set (r := lstrip_with (map (@rev N) whitespace) (length l) (rev l)).
  destruct (lstrip_with_removed whitespace (length (codes s)) (codes s))
    as (front & Hfront & Hc). fold l in Hc.
  destruct (lstrip_with_removed (map (@rev N) whitespace) (length l)
              (rev l)) as (back' & Hback' & Hl). fold r in Hl.
  assert (Hl' : l = (rev r ++ rev (concat back'))%list).
  { rewrite <- rev_app_distr, <- Hl. now rewrite rev_involutive. }
  exists front, (rev (map (@rev N) back')), (rev r).
  split; [exact Hfront|]. split; [|split; [|split; [reflexivity|split]]].
  - apply List.Forall_rev. rewrite List.Forall_forall in *.
    intros w Hw. apply in_map_iff in Hw. destruct Hw as (w' & <- & Hw').
    specialize (Hback' w' Hw'). apply in_map_iff in Hback'.
    destruct Hback' as (w0 & <- & Hw0). now rewrite rev_involutive.
  - rewrite Hc at 1. f_equal. rewrite Hl' at 1. f_equal.
    clear. induction back' as [|w back' IH]; [reflexivity|].
    cbn. rewrite rev_app_distr, concat_app, IH. cbn.
    now rewrite app_nil_r.
  - apply (no_prefix_app whitespace (rev r) (rev (concat back'))).
    rewrite <- Hl'. apply lstrip_with_done; [|reflexivity].
    exact whitespace_nonempty.
  - rewrite rev_involutive. apply lstrip_with_done.
    + exact rev_whitespace_nonempty.
    + now rewrite length_rev.
Qed.

Lemma codes_lt (s : string) : Forall (fun n => n < 256) (codes s).
Proof.
  unfold codes. apply List.Forall_forall. intros n Hn.
  apply in_map_iff in Hn. destruct Hn as (a & <- & _).
  apply N_ascii_bounded.
Qed.

Lemma codes_of_codes (m : list N) :
  Forall (fun n => n < 256) m -> codes (of_codes m) = m.
Proof.
  intros H. unfold codes, of_codes.
  rewrite list_ascii_of_string_of_list_ascii, map_map.
  induction H as [|n m Hn _ IH]; [reflexivity|].
  cbn. now rewrite IH, N_ascii_embedding.
Qed.

(** Stripping a stripped text changes nothing. *)
Lemma strip_idempotent (s : string) : strip (strip s) = strip s.
Proof.
  destruct (strip_codes s)
    as (front & back & m & _ & _ & Hc & Hs & Hfront & Hback).
  assert (Hm : Forall (fun n => n < 256) m).
  { pose proof (codes_lt s) as H. rewrite Hc in H.
    apply List.Forall_app in H. destruct H as [_ H].
    apply List.Forall_app in H. now destruct H. }
  rewrite Hs. unfold strip at 1. cbv zeta.
  rewrite (codes_of_codes m Hm).
  rewrite (lstrip_with_fixed whitespace _ m Hfront).
  now rewrite (lstrip_with_fixed _ _ (rev m) Hback), rev_involutive.
Qed.

Lemma of_N_ascii (a : ascii) : Bytes.of_N (N_of_ascii a) = byte_of_ascii a.
Proof.
  unfold Bytes.of_N. rewrite N.mod_small by apply N_ascii_bounded.
  now rewrite <- byte_of_ascii_via_N.
Qed.

Lemma bytes_of_string (s : string) :
  list_byte_of_string s = map Bytes.of_N (codes s).
Proof.
  unfold list_byte_of_string, codes. rewrite map_map.
  apply map_ext. intros a. now rewrite of_N_ascii.
Qed.

Lemma bytes_of_codes (m : list N) :
  Forall (fun n => n < 256) m ->
  list_byte_of_string (of_codes m) = map Bytes.of_N m.
Proof. intros H. now rewrite bytes_of_string, codes_of_codes. Qed.

(** A white-space character read by the recogniser: it is a whole
    character, so it can only be read between two characters. *)
Lemma whitespace_run (w : list N) (st : utf8_state) :
  In w whitespace ->
  utf8_run st (map Bytes.of_N w)
  = match st with Start => Start | _ => Reject end.
Proof.
  intros Hin. cbn in Hin.
  repeat (destruct Hin as [<-|Hin]; [now destruct st|]).
  destruct Hin.
Qed.

Lemma whitespaces_run_Start (ws : list (list N)) :
  Forall (fun w => In w whitespace) ws ->
  utf8_run Start (map Bytes.of_N (concat ws)) = Start.
Proof.
  induction 1 as [|w ws Hw _ IH]; [reflexivity|].
  cbn [concat]. rewrite map_app, TextFacts.utf8_run_app.
  now rewrite (whitespace_run w Start Hw).
Qed.

Lemma whitespaces_run_back (ws : list (list N)) (st : utf8_state) :
  Forall (fun w => In w whitespace) ws ->
  utf8_run st (map Bytes.of_N (concat ws)) = Start -> st = Start.
Proof.
  intros H. revert st. induction H as [|w ws Hw _ IH]; intros st Hrun.
  - exact Hrun.
  - cbn [concat] in Hrun.
    rewrite map_app, TextFacts.utf8_run_app in Hrun.
    rewrite (whitespace_run w st Hw) in Hrun.
    destruct st; try reflexivity; now apply IH in Hrun.
Qed.

(** The strip of a well-formed text is a well-formed text. *)
Lemma strip_is_str (s : string) :
  is_str s = true -> is_str (strip s) = true.
Proof.
  intros Hs.
  destruct (strip_codes s)
    as (front & back & m & Hf & Hb & Hc & -> & _ & _).
  assert (Hm : Forall (fun n => n < 256) m).
  { pose proof (codes_lt s) as H. rewrite Hc in H.
    apply List.Forall_app in H. destruct H as [_ H].
    apply List.Forall_app in H. now destruct H. }
  unfold is_str in *. rewrite (bytes_of_codes m Hm).
  rewrite bytes_of_string, Hc, !map_app in Hs.
  apply TextFacts.utf8_valid_Start in Hs.
  rewrite !TextFacts.utf8_run_app in Hs.
  rewrite (whitespaces_run_Start front Hf) in Hs.
  apply (whitespaces_run_back back _ Hb) in Hs.
  unfold utf8_valid. now rewrite Hs.
Qed.

End StripFacts.

(* --------------------------------------------------------------------- *)
(** ** More on the store: writing, then reading                           *)
(* --------------------------------------------------------------------- *)

Module StoreMore.

Import Store StoreFacts.

Lemma find_app {A} (f : A -> bool) (l l' : list A) :
  find f (l ++ l') =
  match find f l with Some x => Some x | None => find f l' end.
Proof.
  induction l as [|x l IH]; [reflexivity|].
  cbn. now destruct (f x).
Qed.

Lemma find_filter_none {A} (f : A -> bool) (l : list A) :
  find f (List.filter (fun x => negb (f x)) l) = None.
Proof.
  induction l as [|x l IH]; [reflexivity|].
  cbn. destruct (f x) eqn:E; cbn; [exact IH|]. now rewrite E.
Qed.

Lemma find_filter_other {A} (f g : A -> bool) (l : list A) :
  (forall x, g x = true -> f x = true) ->
  find g (List.filter f l) = find g l.
Proof.
  intros H. induction l as [|x l IH]; [reflexivity|].
  cbn. destruct (g x) eqn:Eg.
  - rewrite (H x Eg). cbn. now rewrite Eg.
  - destruct (f x); cbn; [now rewrite Eg|exact IH].
Qed.

(** [find] is the first of the rows [filter] keeps. *)
Lemma find_head_filter {A} (f : A -> bool) (l : list A) :
  find f l = head (List.filter f l).
Proof.
  induction l as [|x l IH]; [reflexivity|].
  cbn. now destruct (f x).
Qed.

Lemma get_student_by_roll_save (db : Db)
    (roll name email token_b64 created_at : string) :
  get_student_by_roll
    (save_student_token_db db roll name email token_b64 created_at) roll
  = Some {| Student.roll_no := roll; Student.name := name;
            Student.email := email |}.
Proof.
  unfold get_student_by_roll, save_student_token_db. cbn [students].
  rewrite find_app.
  rewrite (find_filter_none
             (fun r => String.eqb (Students.roll_no r) roll)).
  cbn. now rewrite String.eqb_refl.
Qed.

Lemma get_student_by_roll_save_other (db : Db)
    (roll name email token_b64 created_at other : string) :
  other <> roll ->
  get_student_by_roll
    (save_student_token_db db roll name email token_b64 created_at) other
  = get_student_by_roll db other.
Proof.
  intros Hne. unfold get_student_by_roll, save_student_token_db.
  cbn [students]. rewrite find_app, find_filter_other.
  - cbn. replace (roll =? other)%string with false
      by (symmetry; now apply String.eqb_neq, not_eq_sym).
    now destruct (find _ (students db)).
  - intros x Hx. apply String.eqb_eq in Hx. apply negb_true_iff.
    apply String.eqb_neq. congruence.
Qed.

Lemma get_student_by_roll_roll (db : Db) (roll : string) (st : Student.t) :
  get_student_by_roll db roll = Some st -> Student.roll_no st = roll.
Proof.
  unfold get_student_by_roll.
  destruct (find _ (students db)) as [r|] eqn:E; [|discriminate].
  intros [= <-]. apply find_some in E. destruct E as [_ E].
  now apply String.eqb_eq in E.
Qed.

(** X3: after [save_student_token_db] the look-up by that roll number
    returns the name and e-mail just written; the look-up of every other
    roll number returns what it returned before; [attendance] is as it
    was. *)
Theorem lookup_after_save (db : Db)
    (roll name email token_b64 created_at : string) :
  let db' := save_student_token_db db roll name email token_b64 created_at in
  get_student_by_roll db' roll
  = Some {| Student.roll_no := roll; Student.name := name;
            Student.email := email |} /\
  (forall other, other <> roll ->
     get_student_by_roll db' other = get_student_by_roll db other) /\
  attendance db' = attendance db /\
  attendance_seq db' = attendance_seq db.
Proof.
  intros db'. unfold db', get_student_by_roll, save_student_token_db.
  cbn [students attendance attendance_seq].
  split; [|split; [|now split]].
  - apply get_student_by_roll_save.
  - intros other Hne. now apply get_student_by_roll_save_other.
Qed.

Lemma lookup_after_save_witness :
  get_student_by_roll
    (save_student_token_db Demo.db0 "R001" "Asha B" "b@example.org"
       "token" "2025-01-03 00:00:00") "R001"
  = Some {| Student.roll_no := "R001"; Student.name := "Asha B";
            Student.email := "b@example.org" |}.
Proof.
  apply (proj1 (lookup_after_save Demo.db0 "R001" "Asha B" "b@example.org"
                  "token" "2025-01-03 00:00:00")).
Defined.

(** X4: after [save_student_token_db] the look-up by the token just
    written finds a student; it finds the one just written when no row of
    another participant holds the same token. *)
Theorem token_lookup_after_save (db : Db)
    (roll name email token_b64 created_at : string) :
  let db' := save_student_token_db db roll name email token_b64 created_at in
  (exists s, get_student_by_token_b64 db' token_b64 = Some s) /\
  ((forall r, In r (students db) -> Students.roll_no r <> roll ->
      Students.token_b64 r <> token_b64) ->
   get_student_by_token_b64 db' token_b64
   = Some {| Student.roll_no := roll; Student.name := name;
             Student.email := email |}).
Proof.
  intros db'. unfold db', get_student_by_token_b64, save_student_token_db.
  cbn [students]. rewrite find_app. split.
  - destruct (find _ (List.filter _ (students db))) as [r|].
    + now eexists.
    + cbn. rewrite String.eqb_refl. now eexists.
  - intros Hother.
    destruct (find (fun r => String.eqb (Students.token_b64 r) token_b64)
                (List.filter _ (students db))) as [r|] eqn:E.
    + apply find_some in E. destruct E as [Hin Htok].
      apply filter_In in Hin. destruct Hin as [Hin Hroll].
      apply negb_true_iff, String.eqb_neq in Hroll.
      apply String.eqb_eq in Htok. now destruct (Hother r Hin Hroll).
    + cbn. now rewrite String.eqb_refl.
Qed.

Lemma token_lookup_after_save_witness :
  get_student_by_token_b64
    (save_student_token_db empty_db "R001" "Asha" "asha@example.org"
       "token" "2025-01-01 00:00:00") "token"
  = Some {| Student.roll_no := "R001"; Student.name := "Asha";
            Student.email := "asha@example.org" |}.
Proof.
  apply (proj2 (token_lookup_after_save empty_db "R001" "Asha"
                  "asha@example.org" "token" "2025-01-01 00:00:00")).
  intros r [].
Defined.

Lemma records_of_app (db : Db) (roll : string) (l : list Attendance.row) :
  List.filter (fun r => String.eqb (Attendance.roll_no r) roll)
    (attendance db ++ l)
  = records_of db roll
    ++ List.filter (fun r => String.eqb (Attendance.roll_no r) roll) l.
Proof. unfold records_of. apply List.filter_app. Qed.

(** X5: when [add_attendance] returns, the participant is in
    [attendance] with one more row, the row written, and nothing changes
    for the other participants; when it raises, the database is as it
    was. *)
Theorem attendance_after_add (limit : nat) (utcnow : nat -> string)
    (busy : list bool) (db : Db) (roll source note : string) r db' tr :
  add_attendance limit utcnow busy db roll source note = (r, db', tr) ->
  match r with
  | Returned ts =>
      attendance_exists db' roll = true /\
      records_of db' roll
      = records_of db roll ++ [record_of db roll ts source note] /\
      (forall other, other <> roll ->
         records_of db' other = records_of db other /\
         attendance_exists db' other = attendance_exists db other) /\
      students db' = students db
  | Raised _ => db' = db
  end.
Proof.
  intros Heq. destruct (add_attendance_db _ _ _ _ _ _ _ _ _ _ Heq)
    as [Hst H].
  destruct r as [ts|e]; [|exact H].
  split; [|split; [|split; [|exact Hst]]].
  - unfold attendance_exists. rewrite H, existsb_app. cbn.
    now rewrite String.eqb_refl, orb_true_r.
  - unfold records_of at 1. rewrite H, records_of_app. cbn.
    now rewrite String.eqb_refl.
  - intros other Hne.
    assert (Hf : (roll =? other)%string = false)
      by now apply String.eqb_neq, not_eq_sym.
    split.
    + unfold records_of at 1. rewrite H, records_of_app. cbn.
      now rewrite Hf, app_nil_r.
    + unfold attendance_exists. rewrite H, existsb_app. cbn.
      now rewrite Hf, !orb_false_r.
Qed.

Lemma attendance_after_add_witness :
  attendance_exists
    (add_attendance Engine.limit_qr2 Demo.clock [true; true] empty_db
       "R001" "webrtc_live" "").1.2 "R001"
  = true.
Proof.
  apply (attendance_after_add Engine.limit_qr2 Demo.clock [true; true]
           empty_db "R001" "webrtc_live" ""
           (Returned "2025-01-02T18:00:00Z") _ _ eq_refl).
Defined.

End StoreMore.

(* --------------------------------------------------------------------- *)
(** ** More on the engine: what an outcome tells, what is never done      *)
(* --------------------------------------------------------------------- *)

Module EngineMore.

Import Store Engine StoreFacts EngineFacts.

Lemma find_student_None (db : Db) (roll_no qr_data : string) tr :
  find_student db roll_no qr_data = (None, tr) ->
  get_student_by_roll db roll_no = None /\
  get_student_by_token_b64 db qr_data = None.
Proof.
  unfold find_student.
  destruct (get_student_by_roll db roll_no); [discriminate|].
  now intros [= -> _].
Qed.

(** X6: what each ending of a handling tells.  No outcome: the text was
    seen less than 3 seconds ago.  [Invalid]: the text does not decode.
    [Unknown]: it decodes and both look-ups find nothing.  [Duplicate]:
    it decodes, a student is found and the decoded roll number is already
    in [attendance].  [Verified]: it decodes, the student announced is
    the one found, the roll number was not in [attendance] and now is,
    and the time stamp is the clock reading of one of the attempts.  An
    exception leaves [recv] only for a text that passed the debounce and
    decoded, and it leaves the database as it was; nothing is said of
    what raised it. *)
Theorem outcome_sound {F : Fernet} (limit : nat) (env : Env)
    (last_seen : gmap string Q) (db : Db) (qr_data : string) :
  let h := handle limit env last_seen db qr_data in
  match result_of h with
  | Suppressed => suppressed last_seen qr_data (now env) = true
  | Emitted o =>
      suppressed last_seen qr_data (now env) = false /\
      match o with
      | Invalid => Codec.decode qr_data = None
      | Unknown =>
          exists roll_no nonce,
            Codec.decode qr_data = Some (roll_no, nonce) /\
            get_student_by_roll db roll_no = None /\
            get_student_by_token_b64 db qr_data = None
      | Duplicate roll_no =>
          (exists nonce, Codec.decode qr_data = Some (roll_no, nonce)) /\
          (find_student db roll_no qr_data).1 <> None /\
          attendance_exists db roll_no = true
      | Verified student roll_no ts =>
          (exists nonce, Codec.decode qr_data = Some (roll_no, nonce)) /\
          (find_student db roll_no qr_data).1 = Some student /\
          attendance_exists db roll_no = false /\
          attendance_exists (db_of h) roll_no = true /\
          exists k, (k <= limit)%nat /\ ts = utcnow env k
      end
  | Propagated _ =>
      suppressed last_seen qr_data (now env) = false /\
      (exists roll_no nonce,
         Codec.decode qr_data = Some (roll_no, nonce)) /\
      db_of h = db
  end.
Proof.
  intros h. destruct (suppressed last_seen qr_data (now env)) eqn:Hs.
  { unfold h. now rewrite (handle_suppressed limit env last_seen db
                             qr_data Hs). }
  destruct (handle_passed limit env last_seen db qr_data Hs) as [_ H].
  fold h in H.
  destruct (Codec.decode qr_data) as [[roll_no nonce]|];
    [|destruct H as (-> & _); now split].
  destruct (find_student db roll_no qr_data) as [[student|] tr] eqn:Hf.
  - destruct H as (tr' & Hcr & _).
    destruct (check_and_record_spec limit env db _ _ _ _ _ Hcr)
      as (tr'' & _ & Hc).
    destruct (attendance_exists db roll_no) eqn:Hex.
    + destruct Hc as (-> & _). split; [reflexivity|].
      rewrite Hf. cbn. repeat split; eauto; discriminate.
    + destruct (all_busy (S limit) (busy env)) eqn:Hb.
      * destruct Hc as (-> & -> & _). split; [reflexivity|].
        split; [now exists roll_no, nonce | reflexivity].
      * destruct Hc as (k & Hk & -> & -> & _). split; [reflexivity|].
        rewrite Hf. cbn [fst]. repeat split; eauto.
        unfold attendance_exists, insert_attendance. cbn [attendance].
        rewrite existsb_app. cbn.
        now rewrite String.eqb_refl, orb_true_r.
  - destruct H as (-> & _). split; [reflexivity|].
    apply find_student_None in Hf. destruct Hf. now exists roll_no, nonce.
Qed.

(** A roll number recorded by a handling was not in [attendance]. *)
Lemma handle_verified_fresh {F : Fernet} (limit : nat) (env : Env)
    (last_seen : gmap string Q) (db : Db) (qr_data : string)
    student roll_no ts :
  result_of (handle limit env last_seen db qr_data)
  = Emitted (Verified student roll_no ts) ->
  attendance_exists db roll_no = false.
Proof.
  intros Hres.
  destruct (suppressed last_seen qr_data (now env)) eqn:Hs.
  { now rewrite (handle_suppressed limit env last_seen db qr_data Hs)
      in Hres. }
  destruct (handle_passed limit env last_seen db qr_data Hs) as [_ H].
  destruct (Codec.decode qr_data) as [[r nonce]|];
    [|destruct H as (H & _); congruence].
  destruct (find_student db r qr_data) as [[st|] tr];
    [|destruct H as (H & _); congruence].
  destruct H as (tr' & Hcr & _).
  destruct (check_and_record_spec limit env db _ _ _ _ _ Hcr)
    as (tr'' & _ & Hc).
  destruct (attendance_exists db r) eqn:Hex;
    [destruct Hc as (Hr & _); congruence|].
  destruct (all_busy (S limit) (busy env));
    [destruct Hc as (Hr & _); congruence|].
  destruct Hc as (k & _ & Hr & _). congruence.
Qed.

Lemma records_of_fresh (db : Db) (roll : string) :
  attendance_exists db roll = false -> records_of db roll = [].
Proof.
  unfold attendance_exists, records_of.
  induction (attendance db) as [|r l IH]; [reflexivity|].
  cbn. destruct (Attendance.roll_no r =? roll)%string; [discriminate|].
  exact IH.
Qed.

Lemma handle_at_most_once {F : Fernet} (limit : nat) (env : Env)
    (last_seen : gmap string Q) (db : Db) (qr_data : string) :
  at_most_once db ->
  at_most_once (db_of (handle limit env last_seen db qr_data)).
Proof.
  intros Hdb roll.
  pose proof (handle_db limit env last_seen db qr_data) as [_ H].
  cbv zeta in H.
  pose proof (handle_verified_fresh limit env last_seen db qr_data)
    as Hfresh.
  destruct (result_of (handle limit env last_seen db qr_data))
    as [|[| |r|st r ts]|e]; try (rewrite H; apply Hdb).
  unfold records_of. rewrite H, List.filter_app. cbn.
  destruct (String.eqb_spec r roll) as [->|Hne].
  - fold (records_of db roll).
    now rewrite (records_of_fresh db roll (Hfresh st roll ts eq_refl)).
  - rewrite app_nil_r. apply Hdb.
Qed.

Lemma recv_at_most_once {F : Fernet} (limit : nat)
    (symbols : list (Env * list byte)) :
  forall (last_seen : gmap string Q) (db : Db),
    at_most_once db -> at_most_once (recv limit symbols last_seen db).2.
Proof.
  induction symbols as [|[env data] symbols IH]; intros last_seen db Hdb.
  - exact Hdb.
  - cbn [recv]. destruct (Text.decode_utf8 data) as [qr_data|];
      [|now apply IH].
    pose proof (handle_at_most_once limit env last_seen db qr_data Hdb)
      as Hh.
    set (h := handle limit env last_seen db qr_data) in *.
    specialize (IH (last_seen_of h) (db_of h) Hh).
    destruct (result_of h) as [|o|e]; [| |exact Hh];
      destruct (recv limit symbols (last_seen_of h) (db_of h))
        as [[rs ls] db']; exact IH.
Qed.

(** X7: scanning never records a participant twice.  If no participant
    has more than one row in [attendance], then after any sequence of the
    operations of the two programs ([init_db], [save_student_token_db],
    calls of [recv] on any [QRTransformer]), made one after the other,
    none has. *)
Theorem recorded_at_most_once {F : Fernet} (ops : list operation)
    (db : Db) :
  forallb of_programs ops = true ->
  at_most_once db -> at_most_once (apply_all ops db).
Proof.
  revert db. induction ops as [|o ops IH]; intros db Hops Hdb;
    [exact Hdb|].
  cbn in Hops. apply andb_prop in Hops. destruct Hops as [Ho Hops].
  cbn. apply (IH _ Hops).
  destruct o as [|i|? ? ? ? ? ?|limit symbols last_seen];
    [exact Hdb | exact Hdb | discriminate |].
  now apply recv_at_most_once.
Qed.

Lemma recorded_at_most_once_witness :
  at_most_once
    (@apply_all Demo.fernet
       [ Recv limit_qr2
           [(Demo.env_at 10 [], list_byte_of_string Demo.qr_R001)] ∅;
         Recv limit_qr2
           [(Demo.env_at 11 [], list_byte_of_string Demo.qr_R001)] ∅ ]
       Demo.db0).
Proof.
  apply (@recorded_at_most_once Demo.fernet); [reflexivity|].
  intros roll. cbn. lia.
Defined.

(** A text that decodes to a roll number found in [students] and not yet
    in [attendance] is verified, if the insert is not given up. *)
Lemma handle_verified {F : Fernet} (limit : nat) (env : Env)
    (last_seen : gmap string Q) (db : Db) (qr_data roll nonce : string)
    (student : Student.t) :
  suppressed last_seen qr_data (now env) = false ->
  Codec.decode qr_data = Some (roll, nonce) ->
  get_student_by_roll db roll = Some student ->
  attendance_exists db roll = false ->
  all_busy (S limit) (busy env) = false ->
  exists k, (k <= limit)%nat /\
    result_of (handle limit env last_seen db qr_data)
    = Emitted (Verified student roll (utcnow env k)).
Proof.
  intros Hs Hdec Hlook Hex Hbusy.
  destruct (handle_passed limit env last_seen db qr_data Hs) as [_ H].
  rewrite Hdec in H. unfold find_student in H. rewrite Hlook in H.
  destruct H as (tr' & Hcr & _).
  destruct (check_and_record_spec limit env db _ _ _ _ _ Hcr)
    as (tr'' & _ & Hc).
  rewrite Hex, Hbusy in Hc. destruct Hc as (k & Hk & Hr & _).
  exists k. now split.
Qed.

(** X8: the token stored for a participant and the nonce of the scanned
    credential play no part once the roll look-up succeeds: whatever
    token [save_student_token_db] last stored for a roll number, a text
    that passes the debounce and decodes to that roll number, not yet in
    [attendance], is verified (when the insert is not given up).  So a
    credential issued earlier stays valid after a new one is issued. *)
Theorem verified_whatever_token_is_stored {F : Fernet} (limit : nat)
    (env : Env) (last_seen : gmap string Q) (db : Db)
    (qr_data roll nonce name email token_b64 created_at : string) :
  suppressed last_seen qr_data (now env) = false ->
  Codec.decode qr_data = Some (roll, nonce) ->
  attendance_exists db roll = false ->
  all_busy (S limit) (busy env) = false ->
  let db' := save_student_token_db db roll name email token_b64 created_at in
  exists k, (k <= limit)%nat /\
    result_of (handle limit env last_seen db' qr_data)
    = Emitted (Verified {| Student.roll_no := roll; Student.name := name;
                           Student.email := email |}
                 roll (utcnow env k)).
Proof.
  intros Hs Hdec Hex Hbusy db'.
  apply (handle_verified limit env last_seen db' qr_data roll nonce);
    try assumption.
  apply StoreMore.get_student_by_roll_save.
Qed.

Lemma verified_whatever_token_is_stored_witness :
  exists k, (k <= limit_qr2)%nat /\
    result_of
      (@handle Demo.fernet limit_qr2 (Demo.env_at 10 []) ∅
         (save_student_token_db Demo.db0 "R001" "Asha" "asha@example.org"
            "another token" "2025-01-03 00:00:00")
         Demo.qr_R001)
    = Emitted (Verified Demo.student_R001 "R001"
                 (utcnow (Demo.env_at 10 []) k)).
Proof.
  apply (@verified_whatever_token_is_stored Demo.fernet limit_qr2
           (Demo.env_at 10 []) ∅ Demo.db0 Demo.qr_R001 "R001"
           (Codec.make_nonce Demo.rnd) "Asha" "asha@example.org"
           "another token" "2025-01-03 00:00:00");
    vm_compute; reflexivity.
Defined.

End EngineMore.

(* --------------------------------------------------------------------- *)
(** ** The issuance script                                                *)
(* --------------------------------------------------------------------- *)

Module IssuanceFacts.

Import Text Codec Store Engine Issuance.
Import TextFacts CodecFacts StoreFacts EngineFacts StripFacts.

Lemma issue_row_db {F : Fernet} (env : RowEnv) (db : Db) (row : csv_row) :
  (issue_row env db row).2
  = match issuance_of env row with
    | Some i => save_issuance db i
    | None => db
    end.
Proof.
  unfold issue_row, issuance_of.
  destruct (csv_name row), (csv_roll_no row), (csv_email row);
    try reflexivity.
  cbv zeta. destruct (render_fails env); [reflexivity|].
  now destruct (delivery_fails env).
Qed.

(** The loop of [main]: every row adds one to [sent] or one entry to
    [errs]; the database is changed by the saves of the rows that got as
    far as the save, and by nothing else. *)
Lemma issue_rows_spec {F : Fernet} (env : nat -> RowEnv)
    (rs : list csv_row) :
  forall (idx : nat) (acc : Summary),
    let s := issue_rows env idx rs acc in
    (sent s + length (errs s)
     = sent acc + length (errs acc) + length rs)%nat /\
    db_after s = save_all (issuances env idx rs) (db_after acc).
Proof.
  induction rs as [|row rs IH]; intros idx acc.
  - cbn. split; [lia | reflexivity].
  - cbn [issue_rows issuances]. cbv zeta.
    pose proof (issue_row_db (env idx) (db_after acc) row) as Hdb.
    destruct (issue_row (env idx) (db_after acc) row) as [e db'].
    cbn [snd] in Hdb.
    match goal with
    | |- context [issue_rows env (S idx) rs ?a] =>
        destruct (IH (S idx) a) as [Hn Hd]
    end.
    split.
    + rewrite Hn. destruct e; cbn [sent errs]; [|cbn; lia].
      rewrite length_app. cbn. lia.
    + rewrite Hd. destruct e; cbn [db_after]; rewrite Hdb;
        now destruct (issuance_of (env idx) row).
Qed.

Lemma attendance_save_all (calls : list issuance) (db : Db) :
  attendance (save_all calls db) = attendance db.
Proof.
  revert db. induction calls as [|i calls IH]; intros db; [reflexivity|].
  change (save_all (i :: calls) db)
    with (save_all calls (save_issuance db i)).
  now rewrite (IH (save_issuance db i)).
Qed.

Lemma missing_column_spec (df : DataFrame) :
  match missing_column df with
  | Some c => In c required_columns /\ ~ In c (columns df)
  | None => forall c, In c required_columns -> In c (columns df)
  end.
Proof.
  unfold missing_column.
  destruct (find _ required_columns) as [c|] eqn:E.
  - apply find_some in E. destruct E as [Hin Hc]. split; [exact Hin|].
    apply negb_true_iff in Hc. intros Hcol.
    assert (existsb (String.eqb c) (columns df) = true); [|congruence].
    apply existsb_exists. exists c. split; [exact Hcol|].
    apply String.eqb_refl.
  - intros c Hin. pose proof (find_none _ _ E c Hin) as Hc.
    apply negb_false_iff, existsb_exists in Hc.
    destruct Hc as (c' & Hin' & Heq). apply String.eqb_eq in Heq.
    now subst.
Qed.

(** X9: [main] fails fast: when one of the columns [name], [roll_no],
    [email] is missing it ends with the error for a missing column and
    the database as it was, whatever the rows are; it runs the loop only
    when the three columns are there. *)
Theorem main_fails_fast {F : Fernet} (env : nat -> RowEnv)
    (df : DataFrame) (db : Db) :
  match main env df db with
  | Fatal c db' =>
      db' = db /\ In c required_columns /\ ~ In c (columns df)
  | Completed _ => forall c, In c required_columns -> In c (columns df)
  end.
Proof.
  unfold main. cbv zeta. pose proof (missing_column_spec df) as H.
  destruct (missing_column df) as [c|]; [|exact H].
  destruct H. now repeat split.
Qed.

(** X10: when [main] runs the loop, every row is counted once, as sent or
    as an error; [attendance] is as it was; and [students] is what the
    saves of the rows that got as far as the save make of it, in row
    order. *)
Theorem main_summary {F : Fernet} (env : nat -> RowEnv) (df : DataFrame)
    (db : Db) (s : Summary) :
  main env df db = Completed s ->
  (sent s + length (errs s) = length (rows df))%nat /\
  attendance (db_after s) = attendance db /\
  db_after s = save_all (issuances env 0 (rows df)) db.
Proof.
  unfold main. cbv zeta. destruct (missing_column df); [discriminate|].
  intros [= <-].
  destruct (issue_rows_spec env (rows df) 0
              {| sent := 0; errs := []; db_after := init_db db |})
    as [Hn Hd].
  cbv zeta in Hn, Hd. cbn [sent errs db_after] in Hn, Hd.
  split; [exact Hn|]. split; [|exact Hd].
  rewrite Hd. apply attendance_save_all.
Qed.

Lemma main_summary_witness :
  let s :=
    @issue_rows Demo.fernet Demo.row_env 0 (rows Demo.frame)
      {| sent := 0; errs := []; db_after := empty_db |} in
  (sent s + length (errs s) = 3)%nat.
Proof.
  intros s.
  apply (proj1 (@main_summary Demo.fernet Demo.row_env Demo.frame empty_db
                  s eq_refl)).
Defined.

(** X11: what the handling of one row leaves in the database.  A row
    with a missing cell, or whose image fails, leaves it as it was.  A
    row that gets as far as the save is stored under its stripped roll
    number, with its stripped name and e-mail, as the only row of that
    roll number, and this also when the mail then fails and the row is
    counted as an error. *)
Theorem issue_row_effect {F : Fernet} (env : RowEnv) (db : Db)
    (row : csv_row) :
  match issue_row env db row with
  | (Some AttributeError, db') =>
      db' = db /\
      (csv_name row = None \/ csv_roll_no row = None \/
       csv_email row = None)
  | (Some RenderError, db') => db' = db /\ render_fails env = true
  | (e, db') =>
      (e = None <-> delivery_fails env = false) /\
      exists name roll email,
        csv_name row = Some name /\ csv_roll_no row = Some roll /\
        csv_email row = Some email /\
        get_student_by_roll db' (strip roll)
        = Some {| Student.roll_no := strip roll;
                  Student.name := strip name;
                  Student.email := strip email |} /\
        map Students.token_b64 (rows_of db' (strip roll))
        = [token_b64_of
             (make_token (row_iv env) (row_rnd env) (strip roll))]
  end.
Proof.
  unfold issue_row.
  destruct (csv_name row) as [name|]; [|split; auto].
  destruct (csv_roll_no row) as [roll|]; [|split; auto].
  destruct (csv_email row) as [email|]; [|split; auto].
  cbv zeta. destruct (render_fails env); [now split|].
  set (i := {| iss_roll := strip roll; iss_name := strip name;
               iss_email := strip email;
               iss_token_b64 :=
                 token_b64_of
                   (make_token (row_iv env) (row_rnd env) (strip roll));
               iss_created_at := row_created_at env |}).
  assert (H : exists name0 roll0 email0,
     Some name = Some name0 /\ Some roll = Some roll0 /\
     Some email = Some email0 /\
     get_student_by_roll (save_issuance db i) (strip roll0)
     = Some {| Student.roll_no := strip roll0;
               Student.name := strip name0;
               Student.email := strip email0 |} /\
     map Students.token_b64 (rows_of (save_issuance db i) (strip roll0))
     = [token_b64_of
          (make_token (row_iv env) (row_rnd env) (strip roll0))]).
  { exists name, roll, email. repeat split.
    - apply StoreMore.get_student_by_roll_save.
    - replace (rows_of (save_issuance db i) (strip roll))
        with [row_of i] by (symmetry; apply (rows_of_save_same db i)).
      reflexivity. }
  destruct (delivery_fails env); (split; [|exact H]).
  - split; discriminate.
  - now split.
Qed.

Lemma issue_row_effect_witness :
  get_student_by_roll
    (@issue_row Demo.fernet (Demo.row_env 1) empty_db
       {| csv_name := Some "Ben"; csv_roll_no := Some " R002";
          csv_email := Some "ben@example.org" |}).2 "R002"
  = Some {| Student.roll_no := "R002"; Student.name := "Ben";
            Student.email := "ben@example.org" |}.
Proof.
  pose proof (@issue_row_effect Demo.fernet (Demo.row_env 1) empty_db
                {| csv_name := Some "Ben"; csv_roll_no := Some " R002";
                   csv_email := Some "ben@example.org" |}) as H.
  cbv beta iota zeta delta [issue_row csv_name csv_roll_no csv_email
    render_fails delivery_fails Demo.row_env Nat.eqb] in H.
  destruct H as (_ & name & roll & email & [= <-] & [= <-] & [= <-]
                 & H & _).
  exact H.
Defined.

Lemma ascii_code_inj (a b : ascii) : N_of_ascii a = N_of_ascii b -> a = b.
Proof.
  intros H. apply (f_equal ascii_of_N) in H.
  now rewrite !ascii_N_embedding in H.
Qed.

Lemma contains_codes (c : ascii) (s : string) :
  contains c s = true <-> In (N_of_ascii c) (codes s).
Proof.
  unfold codes. induction s as [|d s IH]; cbn; [split; [discriminate|easy]|].
  rewrite orb_true_iff, IH. split; (intros [H|H]; [left|now right]).
  - apply Ascii.eqb_eq in H. now subst.
  - apply Ascii.eqb_eq. now apply ascii_code_inj.
Qed.

(** Stripping brings in no character. *)
Lemma contains_strip (c : ascii) (s : string) :
  contains c s = false -> contains c (strip s) = false.
Proof.
  intros H. destruct (contains c (strip s)) eqn:E; [|reflexivity].
  apply contains_codes in E.
  destruct (strip_codes s) as (front & back & m & _ & _ & Hc & Hs & _).
  assert (Hm : Forall (fun n => n < 256) m).
  { pose proof (codes_lt s) as Hlt. rewrite Hc in Hlt.
    apply List.Forall_app in Hlt. destruct Hlt as [_ Hlt].
    apply List.Forall_app in Hlt. now destruct Hlt. }
  rewrite Hs, (codes_of_codes m Hm) in E.
  assert (Hin : In (N_of_ascii c) (codes s)).
  { rewrite Hc. apply in_or_app. right. apply in_or_app. now left. }
  apply contains_codes in Hin. congruence.
Qed.

(** The text of the credential [main] makes for a roll number decodes to
    that roll number. *)
Lemma decode_issued {F : Fernet} {HF : FernetCorrect F}
    (iv rnd : list byte) (roll : string) :
  is_str roll = true -> contains separator roll = false ->
  decode (token_b64_of (make_token iv rnd (strip roll)))
  = Some (strip roll, make_nonce rnd).
Proof.
  intros Hstr Hsep. destruct (make_nonce_plain rnd) as [Hn Hsn].
  unfold make_token. cbv zeta.
  rewrite (decode_token_of_payload iv _
             (is_str_payload _ _ (strip_is_str roll Hstr) Hn)).
  rewrite (split_payload _ _ (contains_strip _ _ Hsep) Hsn).
  now rewrite strip_idempotent.
Qed.

Lemma In_issuances {F : Fernet} (env : nat -> RowEnv) (rs : list csv_row) :
  forall (idx i : nat) (row : csv_row) (x : issuance),
    nth_error rs i = Some row ->
    issuance_of (env (idx + i)%nat) row = Some x ->
    In x (issuances env idx rs).
Proof.
  induction rs as [|r rs IH]; intros idx i row x Hnth Hx.
  - now destruct i.
  - destruct i as [|i]; cbn in Hnth.
    + injection Hnth as ->. rewrite Nat.add_0_r in Hx.
      cbn. rewrite Hx. now left.
    + replace (idx + S i)%nat with (S idx + i)%nat in Hx by lia.
      specialize (IH (S idx) i row x Hnth Hx). cbn.
      destruct (issuance_of (env idx) r); [now right|exact IH].
Qed.

(** A roll number saved by one of the calls is found afterwards. *)
Lemma get_student_by_roll_save_all (calls : list issuance) (x : issuance) :
  forall db, In x calls ->
    exists st, get_student_by_roll (save_all calls db) (iss_roll x)
               = Some st.
Proof.
  induction calls as [|i calls IH] using rev_ind; intros db Hin;
    [destruct Hin|].
  rewrite save_all_app. cbn [save_all fold_left].
  fold (save_all calls db). unfold save_issuance at 1.
  destruct (String.eqb_spec (iss_roll x) (iss_roll i)) as [->|Hne].
  - rewrite StoreMore.get_student_by_roll_save. now eexists.
  - rewrite StoreMore.get_student_by_roll_save_other by exact Hne.
    apply in_app_or in Hin. destruct Hin as [Hin|[->|[]]].
    + now apply IH.
    + contradiction.
Qed.

(** X12: a credential issued by the script is verified at the gate.  Take
    any row of the frame with its three cells filled, whose image did not
    fail and whose roll number holds no [|]; after [main], the text of
    its QR code, scanned while the participant is not yet in
    [attendance], is verified under the stripped roll number of the row,
    whether or not the mail went out and whatever rows came after. *)
Theorem issued_then_scanned {F : Fernet} {HF : FernetCorrect F}
    (env : nat -> RowEnv) (df : DataFrame) (db : Db) (s : Summary)
    (i : nat) (row : csv_row) (name roll email : string)
    (limit : nat) (scan : Env) (last_seen : gmap string Q) :
  main env df db = Completed s ->
  nth_error (rows df) i = Some row ->
  csv_name row = Some name -> csv_roll_no row = Some roll ->
  csv_email row = Some email ->
  render_fails (env i) = false ->
  is_str roll = true -> contains separator roll = false ->
  let qr_data :=
    token_b64_of (make_token (row_iv (env i)) (row_rnd (env i))
                    (strip roll)) in
  suppressed last_seen qr_data (now scan) = false ->
  attendance_exists db (strip roll) = false ->
  all_busy (S limit) (busy scan) = false ->
  exists student k,
    (k <= limit)%nat /\ Student.roll_no student = strip roll /\
    result_of (handle limit scan last_seen (db_after s) qr_data)
    = Emitted (Verified student (strip roll) (utcnow scan k)).
Proof.
  intros Hmain Hnth Hname Hroll Hemail Hrender Hstr Hsep qr_data
    Hs Hex Hbusy.
  unfold main in Hmain. cbv zeta in Hmain.
  destruct (missing_column df); [discriminate|].
  injection Hmain as <-.
  destruct (issue_rows_spec env (rows df) 0
              {| sent := 0; errs := []; db_after := init_db db |})
    as [_ Hd].
  cbv zeta in Hd. cbn [db_after] in Hd.
  set (x := {| iss_roll := strip roll; iss_name := strip name;
               iss_email := strip email; iss_token_b64 := qr_data;
               iss_created_at := row_created_at (env i) |}).
  assert (Hx : issuance_of (env (0 + i)%nat) row = Some x).
  { unfold issuance_of. cbn [Nat.add].
    now rewrite Hname, Hroll, Hemail, Hrender. }
  pose proof (In_issuances env (rows df) 0 i row x Hnth Hx) as Hin.
  destruct (get_student_by_roll_save_all _ x db Hin) as [st Hst].
  cbn [iss_roll x] in Hst. change db with (init_db db) in Hst at 1.
  rewrite <- Hd in Hst.
  assert (Hex' : attendance_exists
                   (db_after (issue_rows env 0 (rows df)
                      {| sent := 0; errs := []; db_after := init_db db |}))
                   (strip roll) = false).
  { unfold attendance_exists. rewrite Hd, attendance_save_all.
    exact Hex. }
  destruct (EngineMore.handle_verified limit scan last_seen _ qr_data
              (strip roll) (make_nonce (row_rnd (env i))) st Hs
              (decode_issued _ _ roll Hstr Hsep) Hst Hex' Hbusy)
    as (k & Hk & Hres).
  exists st, k. split; [exact Hk|]. split; [|exact Hres].
  now apply (StoreMore.get_student_by_roll_roll _ _ _ Hst).
Qed.

Lemma issued_then_scanned_witness :
  exists student k,
    (k <= limit_qr2)%nat /\ Student.roll_no student = strip "R001 " /\
    result_of
      (@handle Demo.fernet limit_qr2 (Demo.env_at 10 []) ∅
         (db_after
            (@issue_rows Demo.fernet Demo.row_env 0 (rows Demo.frame)
               {| sent := 0; errs := []; db_after := empty_db |}))
         (token_b64_of
            (@make_token Demo.fernet Demo.iv Demo.rnd (strip "R001 "))))
    = Emitted (Verified student (strip "R001 ")
                 (utcnow (Demo.env_at 10 []) k)).
Proof.
  apply (@issued_then_scanned Demo.fernet demo_fernet_correct
           Demo.row_env Demo.frame empty_db _ 0
           {| csv_name := Some " Asha "; csv_roll_no := Some "R001 ";
              csv_email := Some "asha@example.org" |}
           " Asha " "R001 " "asha@example.org" limit_qr2
           (Demo.env_at 10 []) ∅);
    vm_compute; reflexivity.
Defined.

Lemma split_length (sep : ascii) (s : string) :
  length (split sep s) = S (count sep s).
Proof.
  induction s as [|c s IH]; [reflexivity|].
  cbn. destruct (Ascii.eqb c sep); cbn; [now rewrite IH|].
  destruct (split sep s); cbn in *; lia.
Qed.

Lemma contains_count (sep : ascii) (s : string) :
  contains sep s = true -> (1 <= count sep s)%nat.
Proof.
  induction s as [|c s IH]; [discriminate|].
  cbn. destruct (Ascii.eqb c sep); cbn; [lia|]. exact IH.
Qed.

(** The text of a credential made for a roll number decodes, if at all,
    to the strip of that roll number. *)
Lemma decode_made {F : Fernet} {HF : FernetCorrect F}
    (iv rnd : list byte) (roll roll' nonce : string) :
  is_str roll = true ->
  decode (token_b64_of (make_token iv rnd roll)) = Some (roll', nonce) ->
  roll' = strip roll.
Proof.
  intros Hstr. destruct (make_nonce_plain rnd) as [Hn Hsn].
  unfold make_token. cbv zeta.
  rewrite (decode_token_of_payload iv _ (is_str_payload _ _ Hstr Hn)).
  destruct (contains separator roll) eqn:Hsep.
  - pose proof (split_length separator
                  (payload_of roll (make_nonce rnd))) as Hlen.
    unfold payload_of in Hlen at 2. rewrite count_app in Hlen.
    cbn [count] in Hlen. rewrite Ascii.eqb_refl in Hlen.
    apply contains_count in Hsep.
    destruct (split separator (payload_of roll (make_nonce rnd)))
      as [|a [|b [|c l]]]; try discriminate.
    cbn in Hlen. lia.
  - rewrite (split_payload _ _ Hsep Hsn). now intros [= <- _].
Qed.

Lemma filter_Forall {A} (P : A -> Prop) (f : A -> bool) (l : list A) :
  Forall P l -> Forall P (List.filter f l).
Proof.
  intros H. apply List.Forall_forall. intros x Hx.
  apply filter_In in Hx. destruct Hx as [Hx _].
  rewrite List.Forall_forall in H. now apply H.
Qed.

(** The rows [main] writes are rows as the script writes them. *)
Lemma issue_rows_issued {F : Fernet} (env : nat -> RowEnv)
    (rs : list csv_row) :
  Forall (fun row => forall roll, csv_roll_no row = Some roll ->
                       is_str roll = true) rs ->
  forall (idx : nat) (acc : Summary),
    Forall issued_row (students (db_after acc)) ->
    Forall issued_row (students (db_after (issue_rows env idx rs acc))).
Proof.
  induction 1 as [|row rs Hrow _ IH]; intros idx acc Hacc; [exact Hacc|].
  cbn [issue_rows]. cbv zeta.
  assert (Hdb : Forall issued_row
                  (students (issue_row (env idx) (db_after acc) row).2)).
  { unfold issue_row.
    destruct (csv_name row) as [name|]; [|exact Hacc].
    destruct (csv_roll_no row) as [roll|] eqn:Hroll; [|exact Hacc].
    destruct (csv_email row) as [email|]; [|exact Hacc].
    cbv zeta. destruct (render_fails (env idx)); [exact Hacc|].
    assert (Hnew : Forall issued_row
              (students (save_student_token_db (db_after acc) (strip roll)
                 (strip name) (strip email)
                 (token_b64_of
                    (make_token (row_iv (env idx)) (row_rnd (env idx))
                       (strip roll)))
                 (row_created_at (env idx))))).
    { unfold save_student_token_db. cbn [students].
      apply List.Forall_app. split; [now apply filter_Forall|].
      apply List.Forall_cons; [|apply List.Forall_nil].
      unfold issued_row. cbn.
      split; [now apply strip_is_str, Hrow|].
      split; [apply strip_idempotent|]. now eexists _, _. }
    now destruct (delivery_fails (env idx)). }
  destruct (issue_row (env idx) (db_after acc) row) as [e db'].
  cbn [snd] in Hdb. apply IH. now destruct e.
Qed.

(** Among rows the script wrote, a scanned text that decodes to a roll
    number not in [students] is the stored token of no row. *)
Lemma issued_rows_fallback {F : Fernet} {HF : FernetCorrect F} (db : Db)
    (qr_data roll nonce : string) :
  Forall issued_row (students db) ->
  decode qr_data = Some (roll, nonce) ->
  get_student_by_roll db roll = None ->
  get_student_by_token_b64 db qr_data = None.
Proof.
  intros Hissued Hdec Hroll. unfold get_student_by_token_b64.
  destruct (find _ (students db)) as [r|] eqn:E; [|reflexivity].
  exfalso. apply find_some in E. destruct E as [Hin Htok].
  apply String.eqb_eq in Htok.
  rewrite List.Forall_forall in Hissued.
  destruct (Hissued r Hin) as (Hstr & Hstrip & iv & rnd & Hmade).
  rewrite <- Htok, Hmade in Hdec.
  apply (decode_made iv rnd _ _ _ Hstr) in Hdec. rewrite Hstrip in Hdec.
  subst roll. unfold get_student_by_roll in Hroll.
  destruct (find (fun r0 => String.eqb (Students.roll_no r0)
                              (Students.roll_no r)) (students db))
    eqn:E; [discriminate|].
  pose proof (find_none _ _ E r Hin) as Hr. cbn in Hr.
  now rewrite String.eqb_refl in Hr.
Qed.

(** X13: in a database filled by the script the look-up by the scanned
    text is never what finds the student.  After [main], run on a
    database whose rows the script wrote (the empty one, for instance)
    and on cells that are texts, a scanned text that decodes and whose
    roll number is not in [students] is not the stored token of any
    row. *)
Theorem token_fallback_finds_nothing {F : Fernet} {HF : FernetCorrect F}
    (env : nat -> RowEnv) (df : DataFrame) (db : Db) (s : Summary)
    (qr_data roll nonce : string) :
  main env df db = Completed s ->
  Forall issued_row (students db) ->
  Forall (fun row => forall roll, csv_roll_no row = Some roll ->
                       is_str roll = true) (rows df) ->
  decode qr_data = Some (roll, nonce) ->
  get_student_by_roll (db_after s) roll = None ->
  get_student_by_token_b64 (db_after s) qr_data = None.
Proof.
  intros Hmain Hdb Hcells Hdec Hroll.
  unfold main in Hmain. cbv zeta in Hmain.
  destruct (missing_column df); [discriminate|]. injection Hmain as <-.
  pose proof (issue_rows_issued env (rows df) Hcells 0
                {| sent := 0; errs := []; db_after := init_db db |} Hdb)
    as Hissued.
  now apply (issued_rows_fallback _ qr_data roll nonce Hissued).
Qed.

(** X16: a credential for a roll number the script never stored.  After
    [main], a scanned text that passes the debounce and decodes to a roll
    number that is not in [students] gets the outcome [Unknown], and the
    database is as it was. *)
Theorem unissued_roll_is_unknown {F : Fernet} {HF : FernetCorrect F}
    (env : nat -> RowEnv) (df : DataFrame) (db : Db) (s : Summary)
    (limit : nat) (scan : Env) (last_seen : gmap string Q)
    (qr_data roll nonce : string) :
  main env df db = Completed s ->
  Forall issued_row (students db) ->
  Forall (fun row => forall roll, csv_roll_no row = Some roll ->
                       is_str roll = true) (rows df) ->
  suppressed last_seen qr_data (now scan) = false ->
  decode qr_data = Some (roll, nonce) ->
  get_student_by_roll (db_after s) roll = None ->
  let h := handle limit scan last_seen (db_after s) qr_data in
  result_of h = Emitted Unknown /\ db_of h = db_after s.
Proof.
  intros Hmain Hdb Hcells Hs Hdec Hroll h.
  unfold main in Hmain. cbv zeta in Hmain.
  destruct (missing_column df); [discriminate|]. injection Hmain as <-.
  pose proof (issue_rows_issued env (rows df) Hcells 0
                {| sent := 0; errs := []; db_after := init_db db |} Hdb)
    as Hissued.
  set (db' := db_after _) in *.
  pose proof (issued_rows_fallback db' qr_data roll nonce Hissued Hdec
                Hroll) as Htok.
  destruct (handle_passed limit scan last_seen db' qr_data Hs) as [_ H].
  fold h in H. rewrite Hdec in H. unfold find_student in H.
  rewrite Hroll, Htok in H. destruct H as (Hr & Hd & _). now split.
Qed.

Lemma unissued_roll_is_unknown_witness :
  result_of
    (@handle Demo.fernet limit_qr2 (Demo.env_at 10 []) ∅
       (db_after
          (@issue_rows Demo.fernet Demo.row_env 0 (rows Demo.frame)
             {| sent := 0; errs := []; db_after := empty_db |}))
       (token_b64_of (@make_token Demo.fernet Demo.iv Demo.rnd "R999")))
  = Emitted Unknown.
Proof.
  apply (@unissued_roll_is_unknown Demo.fernet demo_fernet_correct
           Demo.row_env Demo.frame empty_db _ limit_qr2
           (Demo.env_at 10 []) ∅ _ "R999" (make_nonce Demo.rnd) eq_refl).
  - apply List.Forall_nil.
  - repeat (apply List.Forall_cons;
            [intros roll [= <-]; reflexivity|]).
    apply List.Forall_nil.
  - vm_compute. reflexivity.
  - vm_compute. reflexivity.
  - vm_compute. reflexivity.
Defined.

Lemma token_fallback_finds_nothing_witness :
  get_student_by_token_b64
    (db_after
       (@issue_rows Demo.fernet Demo.row_env 0 (rows Demo.frame)
          {| sent := 0; errs := []; db_after := empty_db |}))
    (token_b64_of (@make_token Demo.fernet Demo.iv Demo.rnd "R999"))
  = None.
Proof.
  apply (@token_fallback_finds_nothing Demo.fernet demo_fernet_correct
           Demo.row_env Demo.frame empty_db _ _ "R999"
           (make_nonce Demo.rnd) eq_refl).
  - apply List.Forall_nil.
  - repeat (apply List.Forall_cons;
            [intros roll [= <-]; reflexivity|]).
    apply List.Forall_nil.
  - vm_compute. reflexivity.
  - vm_compute. reflexivity.
Defined.

End IssuanceFacts.

(* --------------------------------------------------------------------- *)
(** ** The log view, a code held steady, a participant already recorded   *)
(* --------------------------------------------------------------------- *)

Module ViewFacts.

Import Store Engine Admin StoreFacts EngineFacts.

Lemma filter_select_students (db : Db) (roll : string) :
  List.filter (fun s => String.eqb (Student.roll_no s) roll)
    (select_students db)
  = map student_of (rows_of db roll).
Proof.
  unfold select_students, rows_of.
  induction (students db) as [|r l IH]; [reflexivity|].
  cbn. destruct (Students.roll_no r =? roll)%string; cbn; now rewrite IH.
Qed.

(** X14: the table of the log view has one line for each row of the
    attendance frame, in the same order, each with the student the roll
    look-up returns (or none), provided no roll number has two rows in
    [students], which [save_student_token_db] ensures. *)
Theorem merge_left_lookup (df_att : list Attendance.row) (db : Db) :
  (forall roll, (length (rows_of db roll) <= 1)%nat) ->
  merge_left df_att (select_students db)
  = map (fun a => (a, get_student_by_roll db (Attendance.roll_no a)))
        df_att.
Proof.
  intros Hkey. unfold merge_left.
  induction df_att as [|a df_att IH]; [reflexivity|].
  cbn [flat_map]. rewrite IH. cbn [map].
  rewrite filter_select_students.
  unfold get_student_by_roll. rewrite StoreMore.find_head_filter.
  fold (rows_of db (Attendance.roll_no a)).
  specialize (Hkey (Attendance.roll_no a)).
  destruct (rows_of db (Attendance.roll_no a)) as [|r [|r' l]];
    [reflexivity | reflexivity | cbn in Hkey; lia].
Qed.

Lemma merge_left_lookup_witness :
  merge_left (attendance (insert_attendance Demo.db0 "R001"
                            "2025-01-02T18:00:00Z" "webrtc_live" ""))
    (select_students Demo.db0)
  = map (fun a => (a, get_student_by_roll Demo.db0
                        (Attendance.roll_no a)))
        (attendance (insert_attendance Demo.db0 "R001"
                       "2025-01-02T18:00:00Z" "webrtc_live" "")).
Proof.
  apply (merge_left_lookup _ Demo.db0).
  intros roll.
  apply (rows_of_save_le empty_db
           {| iss_roll := "R001"; iss_name := "Asha";
              iss_email := "asha@example.org";
              iss_token_b64 := Demo.qr_R001;
              iss_created_at := "2025-01-01 00:00:00" |} roll).
  apply Nat.le_0_l.
Defined.

(** X15: a code held in front of the camera.  Once a text has a time in
    [last_seen], any run of observations of that text, each less than 3
    seconds after that time, changes neither [last_seen] nor the
    database. *)
Theorem steady_code_is_handled_once {F : Fernet} (limit : nat)
    (scans : list (Env * string)) (last_seen : gmap string Q) (db : Db)
    (qr_data : string) (t : Q) :
  last_seen !! qr_data = Some t ->
  Forall (fun scan => scan.2 = qr_data /\ (now scan.1 - t < 3)%Q) scans ->
  handle_all limit scans last_seen db = (last_seen, db).
Proof.
  intros Ht Hall. induction Hall as [|[env qr] scans [Hqr Hlt] _ IH];
    [reflexivity|].
  cbn in Hqr, Hlt. subst qr. cbn [handle_all].
  rewrite (handle_suppressed limit env last_seen db qr_data).
  - exact IH.
  - apply suppressed_iff. now exists t.
Qed.

Lemma steady_code_is_handled_once_witness :
  @handle_all Demo.fernet limit_qr2
    [ (Demo.env_at 10.5 [], Demo.qr_R001);
      (Demo.env_at 11 [], Demo.qr_R001);
      (Demo.env_at 12.9 [], Demo.qr_R001) ]
    {[ Demo.qr_R001 := 10%Q ]} Demo.db0
  = ({[ Demo.qr_R001 := 10%Q ]}, Demo.db0).
Proof.
  apply (@steady_code_is_handled_once Demo.fernet limit_qr2 _ _ _
           Demo.qr_R001 10%Q).
  - apply lookup_singleton_eq.
  - repeat (apply List.Forall_cons; [split; reflexivity|]).
    apply List.Forall_nil.
Defined.

(** X17: once recorded, only ever a duplicate.  If a roll number is in
    [attendance], then after any later operations of the system a scanned
    text that passes the debounce, decodes to that roll number and finds
    a student gets the outcome [Duplicate], and the database is left as
    it is: the participant is not verified a second time. *)
Theorem recorded_then_duplicate {F : Fernet} (ops : list operation)
    (db : Db) (limit : nat) (c : Calls.call) (roll : string) :
  attendance_exists db roll = true ->
  Calls.ready (apply_all ops db) roll c ->
  let h := handle limit (Calls.call_env c) (Calls.call_last_seen c)
             (apply_all ops db) (Calls.call_qr c) in
  result_of h = Emitted (Duplicate roll) /\ db_of h = apply_all ops db.
Proof.
  intros Hex Hready.
  apply (CallsClaims.handle_duplicate limit c (apply_all ops db)
           (apply_all ops db) roll Hready eq_refl).
  destruct (StoreClaims.apply_all_attendance ops db) as [l Hl].
  unfold attendance_exists in *. rewrite Hl. now apply existsb_app_l.
Qed.

Lemma recorded_then_duplicate_witness :
  result_of
    (@handle Demo.fernet limit_qr2 (Demo.env_at 10 []) ∅
       (@apply_all Demo.fernet
          [ SaveStudent
              {| iss_roll := "R001"; iss_name := "Asha";
                 iss_email := "asha@example.org";
                 iss_token_b64 := "new";
                 iss_created_at := "2025-01-02 00:00:00" |} ]
          (insert_attendance Demo.db0 "R001" "2025-01-02T18:00:00Z"
             "webrtc_live" ""))
       Demo.qr_R001)
  = Emitted (Duplicate "R001").
Proof.
  apply (@recorded_then_duplicate Demo.fernet _ _ limit_qr2
           Demo.call_R001 "R001").
  - vm_compute. reflexivity.
  - split; [|split]; vm_compute;
      [reflexivity | reflexivity | discriminate].
Defined.

End ViewFacts.
